(** * The CephFS provisioner: a shallow embedding of
      [cephfs/cephfs-provisioner.go] and the properties of its provisioning
      lifecycle ([Provision], [Delete], [parseParameters], [parsePVSecret]).

    Conventions of the embedding.
    - A Go [string] is a sequence of bytes: Rocq's [string].
    - A Go map that the program only looks up ([Annotations], the resource
      requests) or that stands for a keyed store is a [gmap].  A Go map that
      the program ranges over ([parameters], a secret's [Data]) is the list
      of its entries in the order in which the [range] statement visits
      them; Go leaves that order unspecified, and the theorems quantify over
      every such list.
    - A Go function with results [(T, error)] returns the pair as it is
      written, the error being [None] for [nil].
    - Effects are explicit: a computation of type [Go A] takes the state of
      the world (API server, spawned processes, identifiers drawn so far)
      and either returns or panics, together with the new state. *)

From Stdlib Require Import ZArith Ascii.
From stdpp Require Import gmap strings list fin_maps.

Local Open Scope Z_scope.

(** ** Package [strings] (the part the program calls) *)

Module strings.

Fixpoint HasPrefix (s prefix : string) : bool :=
  match prefix, s with
  | EmptyString, _ => true
  | String _ _, EmptyString => false
  | String c prefix', String d s' =>
      if Ascii.eqb c d then HasPrefix s' prefix' else false
  end.

(** [IndexFrom i s substr]: index of the first instance of [substr] in
    [s], counted from [i] at the head of [s]; [-1] when there is none. *)
Fixpoint IndexFrom (i : Z) (s substr : string) : Z :=
  if HasPrefix s substr then i
  else match s with
       | EmptyString => -1
       | String _ s' => IndexFrom (i + 1) s' substr
       end.

Definition Index (s substr : string) : Z := IndexFrom 0 s substr.

(** [Split s sep] for a separator of one byte, which is how the program
    calls it: the pieces of [s] between the instances of [sep]; one piece
    more than there are separators, so never the empty list. *)
Fixpoint Split (s : string) (sep : ascii) : list string :=
  match s with
  | EmptyString => [EmptyString]
  | String c s' =>
      if Ascii.eqb c sep then EmptyString :: Split s' sep
      else match Split s' sep with
           | piece :: pieces => String c piece :: pieces
           | [] => [String c EmptyString]
           end
  end.

Fixpoint Join (elems : list string) (sep : string) : string :=
  match elems with
  | [] => ""
  | [e] => e
  | e :: elems' => e +:+ sep +:+ Join elems' sep
  end.

End strings.

(** The slice expression [s[i:]] on a string: the bytes from index [i] on.
    It panics ([None]) unless [0 <= i <= len(s)]. *)
Fixpoint drop_bytes (n : nat) (s : string) : string :=
  match n, s with
  | O, _ => s
  | S n', String _ s' => drop_bytes n' s'
  | S _, EmptyString => EmptyString
  end.

Definition slice_from (s : string) (i : Z) : option string :=
  if (i <? 0) || (Z.of_nat (String.length s) <? i) then None
  else Some (drop_bytes (Z.to_nat i) s).

(** ** Errors *)

(** The error values of the program: [errors.New], [fmt.Errorf] (format and
    operands kept as written), [controller.IgnoredError], and the errors
    handed over by the collaborators (API server, [os/exec]). *)
Inductive error : Type :=
| errors_New (text : string)
| fmt_Errorf (format : string) (a : list operand)
| IgnoredError (text : string)
| StatusError (reason : string)
| ExitError (state : string)
with operand : Type :=
| op_string (s : string)
| op_error (e : error).

Definition ignorable (e : error) : bool :=
  match e with IgnoredError _ => true | _ => false end.

(** ** Constants *)

Definition provisionCmd : string := "/usr/local/bin/cephfs_provisioner".
Definition provisionerIDAnn : string := "cephFSProvisionerIdentity".
Definition cephShareAnn : string := "cephShare".

(** ** Data model *)

Record provisionOutput : Type := {
  Path : string;
  User : string;
  Secret : string
}.

Definition Quantity : Type := Z.

Module v1.

Definition ResourceStorage : string := "storage".

Inductive PersistentVolumeAccessMode : Type :=
| ReadWriteOnce | ReadOnlyMany | ReadWriteMany.

Record ObjectMeta : Type := {
  Name : string;
  Namespace : string;
  Annotations : gmap string string
}.

Record Secret : Type := {
  SecretMeta : ObjectMeta;
  Data : list (string * string);
  Type_ : string
}.

Record LocalObjectReference : Type := { RefName : string }.

Record CephFSVolumeSource : Type := {
  Monitors : list string;
  Path : string;
  SecretRef : option LocalObjectReference;
  User : string
}.

Record PersistentVolumeSource : Type := {
  CephFS : option CephFSVolumeSource
}.

Record PersistentVolumeSpec : Type := {
  PersistentVolumeReclaimPolicy : string;
  AccessModes : list PersistentVolumeAccessMode;
  Capacity : gmap string Quantity;
  Source : PersistentVolumeSource
}.

Record PersistentVolume : Type := {
  Meta : ObjectMeta;
  Spec : PersistentVolumeSpec
}.

Record LabelSelector : Type := {
  MatchLabels : gmap string string
}.

Record PersistentVolumeClaimSpec : Type := {
  Selector : option LabelSelector;
  Requests : gmap string Quantity
}.

Record PersistentVolumeClaim : Type := {
  ClaimMeta : ObjectMeta;
  ClaimSpec : PersistentVolumeClaimSpec
}.

End v1.

Module storage.
Record StorageClass : Type := {
  ClassName : string;
  Parameters : list (string * string)
}.
End storage.

Module controller.
Record VolumeOptions : Type := {
  PersistentVolumeReclaimPolicy : string;
  PVName : string;
  PVC : v1.PersistentVolumeClaim;
  Parameters : list (string * string)
}.
End controller.

Module kubernetes.
(** A non-nil client; the state it talks to is in the [World]. *)
Inductive Interface : Type := Clientset.
End kubernetes.

Record cephFSProvisioner : Type := {
  client : option kubernetes.Interface;
  identity : string
}.

(** [exec.Cmd]: path, arguments and environment of a subprocess. *)
Record Cmd : Type := {
  CmdPath : string;
  Args : list string;
  Env : list string
}.

Definition Command (name : string) (arg : list string) : Cmd :=
  {| CmdPath := name; Args := arg; Env := [] |}.

Definition setEnv (cmd : Cmd) (env : list string) : Cmd :=
  {| CmdPath := CmdPath cmd; Args := Args cmd; Env := env |}.

(** ** The world and the [Go] monad *)

Record World : Type := {
  apiReachable : bool;
  secrets : gmap (string * string) v1.Secret;
  classes : gmap string storage.StorageClass;
  spawned : list Cmd;
  uuidsDrawn : nat
}.

Inductive outcome (A : Type) : Type :=
| returns (a : A)
| panics (msg : string).
Arguments returns {A} a.
Arguments panics {A} msg.

Definition Go (A : Type) : Type := World → outcome A * World.

Definition ret {A} (a : A) : Go A := λ w, (returns a, w).
Definition panic {A} (msg : string) : Go A := λ w, (panics msg, w).
Definition bind {A B} (m : Go A) (k : A → Go B) : Go B :=
  λ w, match m w with
       | (returns a, w') => k a w'
       | (panics msg, w') => (panics msg, w')
       end.

Notation "'let*' x ':=' m 'in' k" := (bind m (λ x, k))
  (at level 10, x pattern, m at level 100, k at level 200,
   format "'[v' 'let*'  x  ':='  m  'in' '/' k ']'").

Definition with_secrets (w : World) (s : gmap (string * string) v1.Secret)
  : World :=
  {| apiReachable := apiReachable w; secrets := s; classes := classes w;
     spawned := spawned w; uuidsDrawn := uuidsDrawn w |}.

Definition with_spawned (w : World) (l : list Cmd) : World :=
  {| apiReachable := apiReachable w; secrets := secrets w;
     classes := classes w; spawned := l; uuidsDrawn := uuidsDrawn w |}.

Definition with_uuidsDrawn (w : World) (n : nat) : World :=
  {| apiReachable := apiReachable w; secrets := secrets w;
     classes := classes w; spawned := spawned w; uuidsDrawn := n |}.

Definition emptyMeta : v1.ObjectMeta :=
  {| v1.Name := ""; v1.Namespace := ""; v1.Annotations := ∅ |}.
Definition emptySecret : v1.Secret :=
  {| v1.SecretMeta := emptyMeta; v1.Data := []; v1.Type_ := "" |}.
Definition emptyClass : storage.StorageClass :=
  {| storage.ClassName := ""; storage.Parameters := [] |}.
Definition emptyOutput : provisionOutput :=
  {| Path := ""; User := ""; Secret := "" |}.

Definition nil_dereference : string :=
  "invalid memory address or nil pointer dereference".
Definition slice_out_of_range : string := "slice bounds out of range".

(** ** The collaborators: API server, identifier source, subprocess *)

(** The API server as the program sees it through the client: a request
    fails when the server cannot be reached, a [Get] fails when the object
    does not exist, a [Create] fails when it already exists.  As in
    client-go, a failing [Get] hands back an empty object with the error.
    A call through a nil client panics. *)
Definition SecretsGet (c : option kubernetes.Interface)
    (namespace name : string) : Go (v1.Secret * option error) :=
  match c with
  | None => panic nil_dereference
  | Some _ => λ w,
      if apiReachable w then
        match secrets w !! (namespace, name) with
        | Some s => (returns (s, None), w)
        | None => (returns (emptySecret, Some (StatusError "NotFound")), w)
        end
      else (returns (emptySecret, Some (StatusError "ServiceUnavailable")), w)
  end.

Definition SecretsCreate (c : option kubernetes.Interface)
    (namespace : string) (secret : v1.Secret) : Go (option error) :=
  match c with
  | None => panic nil_dereference
  | Some _ => λ w,
      if apiReachable w then
        let key := (namespace, v1.Name (v1.SecretMeta secret)) in
        match secrets w !! key with
        | Some _ => (returns (Some (StatusError "AlreadyExists")), w)
        | None => (returns None, with_secrets w (<[key := secret]> (secrets w)))
        end
      else (returns (Some (StatusError "ServiceUnavailable")), w)
  end.

Definition StorageClassesGet (c : option kubernetes.Interface)
    (name : string) : Go (storage.StorageClass * option error) :=
  match c with
  | None => panic nil_dereference
  | Some _ => λ w,
      if apiReachable w then
        match classes w !! name with
        | Some class => (returns (class, None), w)
        | None => (returns (emptyClass, Some (StatusError "NotFound")), w)
        end
      else (returns (emptyClass, Some (StatusError "ServiceUnavailable")), w)
  end.

(** The local variables of [parseParameters] that its loop assigns. *)
Record locals : Type := {
  cluster : string;
  adminID : string;
  adminSecretName : string;
  adminSecretNamespace : string;
  mon : list string
}.

Section Provisioner.

(** What lies outside the repository is taken as given:
    - [ToLower] is [strings.ToLower] (Unicode lower-casing);
    - [Unmarshal data res] is the value of the pointer [res] after
      [json.Unmarshal(data, &res)], whose error the program drops; the
      result is [None] when the decoder has set the pointer to nil;
    - [uuidSource n] is the [n]-th identifier [uuid.NewUUID] hands out;
    - [agent cmd] is what running [cmd] to completion yields: its
      combined output and, unless it ran and exited with status 0, the
      description of its failure. *)
Variable ToLower : string → string.
Variable Unmarshal : string → option provisionOutput → option provisionOutput.
Variable uuidSource : nat → string.
Variable agent : Cmd → string * option string.

Definition NewUUID : Go string :=
  λ w, (returns (uuidSource (uuidsDrawn w)),
        with_uuidsDrawn w (S (uuidsDrawn w))).

Definition CombinedOutput (cmd : Cmd) : Go (string * option error) :=
  λ w, (returns ((agent cmd).1, ExitError <$> (agent cmd).2),
        with_spawned w (spawned w ++ [cmd])).

(** ** [parsePVSecret] *)

Definition parsePVSecret (p : cephFSProvisioner)
    (namespace secretName : string) : Go (string * option error) :=
  match client p with
  | None => ret ("", Some (fmt_Errorf "Cannot get kube client" []))
  | Some _ =>
      let* (secrets, err) := SecretsGet (client p) namespace secretName in
      match err with
      | Some e => ret ("", Some e)
      | None =>
          match v1.Data secrets with
          | (_, data) :: _ => ret (data, None)
          | [] => ret ("", Some (fmt_Errorf "no secret found" []))
          end
      end
  end.

(** ** [parseParameters] *)

(** The [range] loop: one [switch] per entry; the [default] case leaves
    the function at once ([inr]). *)
Fixpoint rangeParameters (parameters : list (string * string))
    (l : locals) : locals + error :=
  match parameters with
  | [] => inl l
  | (k, v) :: rest =>
      let lk := ToLower k in
      if String.eqb lk "cluster" then
        rangeParameters rest
          {| cluster := v; adminID := adminID l;
             adminSecretName := adminSecretName l;
             adminSecretNamespace := adminSecretNamespace l;
             mon := mon l |}
      else if String.eqb lk "monitors" then
        let arr := strings.Split v "," in
        rangeParameters rest
          {| cluster := cluster l; adminID := adminID l;
             adminSecretName := adminSecretName l;
             adminSecretNamespace := adminSecretNamespace l;
             mon := mon l ++ arr |}
      else if String.eqb lk "adminid" then
        rangeParameters rest
          {| cluster := cluster l; adminID := v;
             adminSecretName := adminSecretName l;
             adminSecretNamespace := adminSecretNamespace l;
             mon := mon l |}
      else if String.eqb lk "adminsecretname" then
        rangeParameters rest
          {| cluster := cluster l; adminID := adminID l;
             adminSecretName := v;
             adminSecretNamespace := adminSecretNamespace l;
             mon := mon l |}
      else if String.eqb lk "adminsecretnamespace" then
        rangeParameters rest
          {| cluster := cluster l; adminID := adminID l;
             adminSecretName := adminSecretName l;
             adminSecretNamespace := v;
             mon := mon l |}
      else inr (fmt_Errorf "invalid option %q" [op_string k])
  end.

Definition initialLocals : locals :=
  {| cluster := "ceph"; adminID := "admin"; adminSecretName := "";
     adminSecretNamespace := "default"; mon := [] |}.

Definition parseParameters (p : cephFSProvisioner)
    (parameters : list (string * string))
    : Go (string * string * string * list string * option error) :=
  match rangeParameters parameters initialLocals with
  | inr e => ret ("", "", "", [], Some e)
  | inl l =>
      if String.eqb (adminSecretName l) "" then
        ret ("", "", "", [],
             Some (fmt_Errorf "missing Ceph admin secret name" []))
      else
        let* (adminSecret, err) :=
          parsePVSecret p (adminSecretNamespace l) (adminSecretName l) in
        match err with
        | Some e =>
            ret ("", "", "", [],
                 Some (fmt_Errorf
                         "failed to get admin secret from [%q/%q]: %v"
                         [op_string (adminSecretNamespace l);
                          op_string (adminSecretName l); op_error e]))
        | None =>
            if (length (mon l) <? 1)%nat then
              ret ("", "", "", [],
                   Some (fmt_Errorf "missing Ceph monitors" []))
            else ret (cluster l, adminID l, adminSecret, mon l, None)
        end
  end.

(** ** [getClassForVolume] *)

Definition getClassForVolume (p : cephFSProvisioner)
    (pv : v1.PersistentVolume)
    : Go (option storage.StorageClass * option error) :=
  match v1.Annotations (v1.Meta pv)
          !! "volume.beta.kubernetes.io/storage-class" with
  | None => ret (None, Some (fmt_Errorf "Volume has no class annotation" []))
  | Some className =>
      let* (class, err) := StorageClassesGet (client p) className in
      match err with
      | Some e => ret (None, Some e)
      | None => ret (Some class, None)
      end
  end.

(** The environment both commands are given. *)
Definition cephEnv (cluster adminID adminSecret : string)
    (mon : list string) : list string :=
  ["CEPH_CLUSTER_NAME=" +:+ cluster;
   "CEPH_MON=" +:+ strings.Join mon ",";
   "CEPH_AUTH_ID=" +:+ adminID;
   "CEPH_AUTH_KEY=" +:+ adminSecret].

(** ** [Provision] *)

Definition Provision (p : cephFSProvisioner)
    (options : controller.VolumeOptions)
    : Go (option v1.PersistentVolume * option error) :=
  match v1.Selector (v1.ClaimSpec (controller.PVC options)) with
  | Some _ =>
      ret (None, Some (fmt_Errorf "claim Selector is not supported" []))
  | None =>
  let* (cluster, adminID, adminSecret, mon, err) :=
    parseParameters p (controller.Parameters options) in
  match err with
  | Some e => ret (None, Some e)
  | None =>
  (* create random share name *)
  let* shareID := NewUUID in
  let share := "kubernetes-dynamic-pvc-" +:+ shareID in
  (* create random user id *)
  let* userID := NewUUID in
  let user := "kubernetes-dynamic-user-" +:+ userID in
  (* provision share *)
  let cmd :=
    setEnv (Command provisionCmd ["-n"; share; "-u"; user])
           (cephEnv cluster adminID adminSecret mon) in
  let* (output, cmdErr) := CombinedOutput cmd in
  match cmdErr with
  | Some e => ret (None, Some e)
  | None =>
  (* validate output: [res] is dereferenced right after decoding *)
  match Unmarshal output (Some emptyOutput) with
  | None => panic nil_dereference
  | Some res =>
  if String.eqb (User res) "" || String.eqb (Secret res) ""
     || String.eqb (Path res) ""
  then ret (None, Some (fmt_Errorf "invalid provisioner output" []))
  else
  (* create secret in PVC's namespace *)
  let nameSpace := v1.Namespace (v1.ClaimMeta (controller.PVC options)) in
  let secretName := "ceph-" +:+ user +:+ "-secret" in
  let secret :=
    {| v1.SecretMeta :=
         {| v1.Name := secretName; v1.Namespace := nameSpace;
            v1.Annotations := ∅ |};
       v1.Data := [("key", Secret res)];
       v1.Type_ := "Opaque" |} in
  let* err := SecretsCreate (client p) nameSpace secret in
  match err with
  | Some _ => ret (None, Some (fmt_Errorf "failed to create secret" []))
  | None =>
  (* the literal of [pv] is evaluated field by field; slicing the path
     is the one operand that can panic *)
  match slice_from (Path res) (strings.Index (Path res) "/") with
  | None => panic slice_out_of_range
  | Some path =>
  let pv :=
    {| v1.Meta :=
         {| v1.Name := controller.PVName options; v1.Namespace := "";
            v1.Annotations :=
              <[cephShareAnn := share]>
                (<[provisionerIDAnn := identity p]> ∅) |};
       v1.Spec :=
         {| v1.PersistentVolumeReclaimPolicy :=
              controller.PersistentVolumeReclaimPolicy options;
            v1.AccessModes :=
              [v1.ReadWriteOnce; v1.ReadOnlyMany; v1.ReadWriteMany];
            v1.Capacity :=
              {[ v1.ResourceStorage :=
                   default 0
                     (v1.Requests (v1.ClaimSpec (controller.PVC options))
                        !! v1.ResourceStorage) ]};
            v1.Source :=
              {| v1.CephFS :=
                   Some {| v1.Monitors := mon;
                           v1.Path := path;
                           v1.SecretRef := Some {| v1.RefName := secretName |};
                           v1.User := user |} |} |} |} in
  ret (Some pv, None)
  end end end end end end.

(** ** [Delete] *)

Definition Delete (p : cephFSProvisioner) (volume : v1.PersistentVolume)
    : Go (option error) :=
  match v1.Annotations (v1.Meta volume) !! provisionerIDAnn with
  | None => ret (Some (errors_New "identity annotation not found on PV"))
  | Some ann =>
  if negb (String.eqb ann (identity p)) then
    ret (Some (IgnoredError "identity annotation on PV does not match ours"))
  else
  match v1.Annotations (v1.Meta volume) !! cephShareAnn with
  | None => ret (Some (errors_New "ceph share annotation not found on PV"))
  | Some share =>
  (* delete CephFS *)
  let* (class, err) := getClassForVolume p volume in
  match err with
  | Some e => ret (Some e)
  | None =>
  match class with
  | None => panic nil_dereference
  | Some class =>
  let* (cluster, adminID, adminSecret, mon, err) :=
    parseParameters p (storage.Parameters class) in
  match err with
  | Some e => ret (Some e)
  | None =>
  (* [volume.Spec.PersistentVolumeSource.CephFS] is a pointer *)
  match v1.CephFS (v1.Source (v1.Spec volume)) with
  | None => panic nil_dereference
  | Some cephFS =>
  let user := v1.User cephFS in
  let cmd :=
    setEnv (Command provisionCmd ["-r"; "-n"; share; "-u"; user])
           (cephEnv cluster adminID adminSecret mon) in
  let* (output, cmdErr) := CombinedOutput cmd in
  match cmdErr with
  | Some e => ret (Some e)
  | None => ret None
  end end end end end end end.

(** ** [newCephFSProvisioner] *)

(** The identity is drawn when the struct literal is evaluated. *)
Definition newCephFSProvisioner (client : option kubernetes.Interface)
    : Go cephFSProvisioner :=
  let* identity := NewUUID in
  ret {| client := client; identity := identity |}.

End Provisioner.

(** ** A concrete setting, for running the program *)

Module Scenario.

(** [strings.ToLower] on ASCII text: the letters [A]..[Z] are shifted,
    every other byte is kept. *)
Definition lowerByte (c : ascii) : ascii :=
  let n := nat_of_ascii c in
  if ((65 <=? n) && (n <=? 90))%nat then ascii_of_nat (n + 32) else c.

Fixpoint lowerASCII (s : string) : string :=
  match s with
  | EmptyString => EmptyString
  | String c s' => String (lowerByte c) (lowerASCII s')
  end.

(** A decoder given by a table of the texts it is run on; on any other
    text the target is left as it was, as for text that is not JSON. *)
Fixpoint tableUnmarshal (table : list (string * option provisionOutput))
    (data : string) (res : option provisionOutput)
    : option provisionOutput :=
  match table with
  | [] => res
  | (text, decoded) :: table' =>
      if String.eqb text data then decoded
      else tableUnmarshal table' data res
  end.

Definition quoted (s : string) : string :=
  String "034" (s +:+ String "034" EmptyString).

(** The JSON object the allocation agent prints on [create]. *)
Definition jsonOutput (path user auth : string) : string :=
  "{" +:+ quoted "path" +:+ ":" +:+ quoted path +:+ ","
      +:+ quoted "user" +:+ ":" +:+ quoted user +:+ ","
      +:+ quoted "auth" +:+ ":" +:+ quoted auth +:+ "}".

Definition decoder : string → option provisionOutput → option provisionOutput :=
  tableUnmarshal
    [(jsonOutput "/volumes/vol1" "u1" "AQA==",
      Some {| Path := "/volumes/vol1"; User := "u1"; Secret := "AQA==" |});
     (jsonOutput "vol1" "u1" "AQA==",
      Some {| Path := "vol1"; User := "u1"; Secret := "AQA==" |});
     (jsonOutput "/volumes/vol1" "u1" "",
      Some {| Path := "/volumes/vol1"; User := "u1"; Secret := "" |})].

Definition uuids (n : nat) : string :=
  match n with
  | O => "6ba7b810-9dad-11d1-80b4-00c04fd430c8"
  | 1%nat => "6ba7b811-9dad-11d1-80b4-00c04fd430c8"
  | _ => "6ba7b812-9dad-11d1-80b4-00c04fd430c8"
  end.

(** An agent that prints [output] and exits as [exit] says. *)
Definition scripted (output : string) (exit : option string)
    : Cmd → string * option string :=
  λ _, (output, exit).

Definition adminSecret : v1.Secret :=
  {| v1.SecretMeta :=
       {| v1.Name := "ceph-admin"; v1.Namespace := "default";
          v1.Annotations := ∅ |};
     v1.Data := [("key", "AQDadminkey==")];
     v1.Type_ := "Opaque" |}.

Definition parameters : list (string * string) :=
  [("monitors", "10.0.0.1:6789,10.0.0.2:6789");
   ("adminSecretName", "ceph-admin")].

Definition class : storage.StorageClass :=
  {| storage.ClassName := "cephfs"; storage.Parameters := parameters |}.

Definition world : World :=
  {| apiReachable := true;
     secrets := {[ ("default", "ceph-admin") := adminSecret ]};
     classes := {[ "cephfs" := class ]};
     spawned := [];
     uuidsDrawn := 0 |}.

Definition provisioner : cephFSProvisioner :=
  {| client := Some kubernetes.Clientset; identity := "identity-A" |}.

Definition claim : v1.PersistentVolumeClaim :=
  {| v1.ClaimMeta :=
       {| v1.Name := "claim1"; v1.Namespace := "apps";
          v1.Annotations := ∅ |};
     v1.ClaimSpec :=
       {| v1.Selector := None;
          v1.Requests := {[ v1.ResourceStorage := 1073741824 ]} |} |}.

Definition options (parameters : list (string * string))
    : controller.VolumeOptions :=
  {| controller.PersistentVolumeReclaimPolicy := "Delete";
     controller.PVName := "pvc-1";
     controller.PVC := claim;
     controller.Parameters := parameters |}.

(** A volume as [Provision] stamps it, with or without its CephFS
    source. *)
Definition volume (owner : string) (share : option string)
    (source : option v1.CephFSVolumeSource) : v1.PersistentVolume :=
  {| v1.Meta :=
       {| v1.Name := "pvc-1"; v1.Namespace := "";
          v1.Annotations :=
            let stamped : gmap string string :=
              <[provisionerIDAnn := owner]>
                {[ "volume.beta.kubernetes.io/storage-class" := "cephfs" ]} in
            match share with
            | Some s => <[cephShareAnn := s]> stamped
            | None => stamped
            end |};
     v1.Spec :=
       {| v1.PersistentVolumeReclaimPolicy := "Delete";
          v1.AccessModes :=
            [v1.ReadWriteOnce; v1.ReadOnlyMany; v1.ReadWriteMany];
          v1.Capacity := {[ v1.ResourceStorage := 1073741824 ]};
          v1.Source := {| v1.CephFS := source |} |} |}.

Definition cephFSSource : v1.CephFSVolumeSource :=
  {| v1.Monitors := ["10.0.0.1:6789"; "10.0.0.2:6789"];
     v1.Path := "/volumes/vol1";
     v1.SecretRef := Some {| v1.RefName := "ceph-u-secret" |};
     v1.User := "kubernetes-dynamic-user-1" |}.

(** A volume that carries no ownership annotation. *)
Definition bareVolume : v1.PersistentVolume :=
  {| v1.Meta :=
       {| v1.Name := "pv-static"; v1.Namespace := "";
          v1.Annotations :=
            {[ "volume.beta.kubernetes.io/storage-class" := "cephfs" ]} |};
     v1.Spec :=
       {| v1.PersistentVolumeReclaimPolicy := "Retain";
          v1.AccessModes := [v1.ReadWriteMany];
          v1.Capacity := {[ v1.ResourceStorage := 1073741824 ]};
          v1.Source := {| v1.CephFS := Some cephFSSource |} |} |}.

Definition shareName : string :=
  "kubernetes-dynamic-pvc-6ba7b810-9dad-11d1-80b4-00c04fd430c8".
Definition userName : string :=
  "kubernetes-dynamic-user-6ba7b811-9dad-11d1-80b4-00c04fd430c8".

Definition environment : list string :=
  ["CEPH_CLUSTER_NAME=ceph";
   "CEPH_MON=10.0.0.1:6789,10.0.0.2:6789";
   "CEPH_AUTH_ID=admin";
   "CEPH_AUTH_KEY=AQDadminkey=="].

(** The command a [Provision] call in [world] runs. *)
Definition created : Cmd :=
  {| CmdPath := provisionCmd;
     Args := ["-n"; shareName; "-u"; userName];
     Env := environment |}.

(** The command a [Delete] call in [world] runs for [share] and the user
    of [cephFSSource]. *)
Definition destroyed (share : string) : Cmd :=
  {| CmdPath := provisionCmd;
     Args := ["-r"; "-n"; share; "-u"; "kubernetes-dynamic-user-1"];
     Env := environment |}.

(** The volume [Provision] returns in [world] when the agent reports the
    path ["/volumes/vol1"]. *)
Definition published : v1.PersistentVolume :=
  {| v1.Meta :=
       {| v1.Name := "pvc-1"; v1.Namespace := "";
          v1.Annotations :=
            <[cephShareAnn := shareName]>
              (<[provisionerIDAnn := "identity-A"]> ∅) |};
     v1.Spec :=
       {| v1.PersistentVolumeReclaimPolicy := "Delete";
          v1.AccessModes :=
            [v1.ReadWriteOnce; v1.ReadOnlyMany; v1.ReadWriteMany];
          v1.Capacity := {[ v1.ResourceStorage := 1073741824 ]};
          v1.Source :=
            {| v1.CephFS :=
                 Some {| v1.Monitors := ["10.0.0.1:6789"; "10.0.0.2:6789"];
                         v1.Path := "/volumes/vol1";
                         v1.SecretRef :=
                           Some {| v1.RefName :=
                                     "ceph-" +:+ userName +:+ "-secret" |};
                         v1.User := userName |} |} |} |}.

(** Agents: one that reports [path] on [create], one that exits with
    status 1, one that succeeds without output (as on [destroy]). *)
Definition reporting (path : string) : Cmd → string * option string :=
  scripted (jsonOutput path "u1" "AQA==") None.
Definition failing : Cmd → string * option string :=
  scripted "mount error" (Some "exit status 1").
Definition silent : Cmd → string * option string :=
  scripted "" None.

(** [Provision] and [Delete] of [provisioner], run in [world]. *)
Definition provision (agent : Cmd → string * option string)
    : outcome (option v1.PersistentVolume * option error) * World :=
  Provision lowerASCII decoder uuids agent provisioner (options parameters)
    world.

Definition delete (pv : v1.PersistentVolume)
    : outcome (option error) * World :=
  Delete lowerASCII silent provisioner pv world.

(** The bundle of [parameters], visited in the other order. *)
Definition parametersReversed : list (string * string) :=
  [("adminSecretName", "ceph-admin");
   ("monitors", "10.0.0.1:6789,10.0.0.2:6789")].

(** A request with a selector, and one whose bundle names no admin
    secret. *)
Definition selective : controller.VolumeOptions :=
  {| controller.PersistentVolumeReclaimPolicy := "Delete";
     controller.PVName := "pvc-2";
     controller.PVC :=
       {| v1.ClaimMeta := v1.ClaimMeta claim;
          v1.ClaimSpec :=
            {| v1.Selector := Some {| v1.MatchLabels := ∅ |};
               v1.Requests := v1.Requests (v1.ClaimSpec claim) |} |};
     controller.Parameters := parameters |}.

Definition nameless : list (string * string) :=
  [("monitors", "10.0.0.1:6789,10.0.0.2:6789")].

(** A bundle that names an admin secret the store does not hold. *)
Definition dangling : list (string * string) :=
  [("monitors", "10.0.0.1:6789,10.0.0.2:6789");
   ("adminSecretName", "absent")].

(** A decoder that also knows the text [null], which sets the pointer to
    nil, and a path with the address of a monitor before it. *)
Definition decoderWide
    : string → option provisionOutput → option provisionOutput :=
  tableUnmarshal
    [("null", None);
     (jsonOutput "10.0.0.1:6789:/volumes/vol1" "u1" "AQA==",
      Some {| Path := "10.0.0.1:6789:/volumes/vol1"; User := "u1";
              Secret := "AQA==" |})].

(** [world] with the name of the secret of the next call taken. *)
Definition crowded : World :=
  {| apiReachable := true;
     secrets :=
       <[("apps", "ceph-" +:+ userName +:+ "-secret") := adminSecret]>
         (secrets world);
     classes := classes world;
     spawned := [];
     uuidsDrawn := 0 |}.

(** A provisioner without a client. *)
Definition clientless : cephFSProvisioner :=
  {| client := None; identity := "identity-A" |}.

(** An identifier source that does not repeat itself, and two instances
    made from it, one after the other. *)
Fixpoint serial (n : nat) : string :=
  match n with
  | O => "id"
  | S n' => String "+" (serial n')
  end.

Definition first : cephFSProvisioner :=
  {| client := Some kubernetes.Clientset; identity := serial 0 |}.
Definition second : cephFSProvisioner :=
  {| client := Some kubernetes.Clientset; identity := serial 1 |}.

(** [world] after the first instance has been made. *)
Definition started : World :=
  {| apiReachable := true;
     secrets := secrets world;
     classes := classes world;
     spawned := [];
     uuidsDrawn := 1 |}.

(** The volume [first] provisions in [started], with [serial] as the
    identifier source. *)
Definition publishedByFirst : v1.PersistentVolume :=
  {| v1.Meta :=
       {| v1.Name := "pvc-1"; v1.Namespace := "";
          v1.Annotations :=
            <[cephShareAnn := "kubernetes-dynamic-pvc-" +:+ serial 1]>
              (<[provisionerIDAnn := serial 0]> ∅) |};
     v1.Spec :=
       {| v1.PersistentVolumeReclaimPolicy := "Delete";
          v1.AccessModes :=
            [v1.ReadWriteOnce; v1.ReadOnlyMany; v1.ReadWriteMany];
          v1.Capacity := {[ v1.ResourceStorage := 1073741824 ]};
          v1.Source :=
            {| v1.CephFS :=
                 Some {| v1.Monitors := ["10.0.0.1:6789"; "10.0.0.2:6789"];
                         v1.Path := "/volumes/vol1";
                         v1.SecretRef :=
                           Some {| v1.RefName :=
                                     "ceph-"
                                       +:+ ("kubernetes-dynamic-user-"
                                              +:+ serial 2)
                                       +:+ "-secret" |};
                         v1.User :=
                           "kubernetes-dynamic-user-" +:+ serial 2 |} |} |} |}.

(** The class of the scenario with its parameters visited in the other
    order, and the world [Provision] leaves, found later with that class. *)
Definition classReversed : storage.StorageClass :=
  {| storage.ClassName := "cephfs";
     storage.Parameters := parametersReversed |}.

Definition reordered : World :=
  {| apiReachable := true;
     secrets := secrets (provision (reporting "/volumes/vol1")).2;
     classes := {[ "cephfs" := classReversed ]};
     spawned := spawned (provision (reporting "/volumes/vol1")).2;
     uuidsDrawn := 2 |}.

End Scenario.

(** ** Vocabulary of the properties *)

(** The keys [parseParameters] knows, as its [switch] spells them. *)
Definition recognizedKeys : list string :=
  ["cluster"; "monitors"; "adminid"; "adminsecretname";
   "adminsecretnamespace"].

(** The non-empty entries a [monitors] value yields when split on commas. *)
Definition nonEmptyEntries (v : string) : list string :=
  filter (λ m, m ≠ EmptyString) (strings.Split v ",").

(** No byte of [s] is the byte [c]. *)
Definition free_of (c : ascii) (s : string) : Prop :=
  c ∉ String.list_ascii_of_string s.

(** A decoded record with an empty [path], [user] or [auth]. *)
Definition hasEmptyField (res : provisionOutput) : Prop :=
  Path res = "" ∨ User res = "" ∨ Secret res = "".

(** The share and user arguments of a command, named as the specification
    words them. *)
Definition namedAsSpecified (c : Cmd) : Prop :=
  ∃ random1 random2,
    Args c = ["-n"; "dyn-pvc-" +:+ random1; "-u"; "dyn-user-" +:+ random2].

(** The three outcomes of ownership verification, read off what [Delete]
    hands back: [errors.New] is used for the two missing annotations only,
    [IgnoredError] for the foreign identity only; every other way out of
    [Delete] lies past verification. *)
Inductive verdict : Type := Owned | NotMine | NotFound.

Definition verdictOf (r : outcome (option error)) : verdict :=
  match r with
  | returns (Some (IgnoredError _)) => NotMine
  | returns (Some (errors_New _)) => NotFound
  | _ => Owned
  end.

(** The four settings [parseParameters] keeps in a string variable, the
    key of each as the [switch] spells it, and the variable. *)
Inductive setting : Type :=
| Cluster | AdminID | AdminSecretName | AdminSecretNamespace.

Definition settingKey (f : setting) : string :=
  match f with
  | Cluster => "cluster"
  | AdminID => "adminid"
  | AdminSecretName => "adminsecretname"
  | AdminSecretNamespace => "adminsecretnamespace"
  end.

Definition settingOf (f : setting) (l : locals) : string :=
  match f with
  | Cluster => cluster l
  | AdminID => adminID l
  | AdminSecretName => adminSecretName l
  | AdminSecretNamespace => adminSecretNamespace l
  end.

(** The keys of a bundle, each after lower-casing, in visiting order. *)
Definition loweredKeys (ToLower : string → string)
    (parameters : list (string * string)) : list string :=
  (λ kv, ToLower kv.1) <$> parameters.

(** The two commands the program builds, and the name of the secret it
    creates for a user. *)
Definition createCommand (clusterName adminName adminKey : string)
    (monitors : list string) (share user : string) : Cmd :=
  setEnv (Command provisionCmd ["-n"; share; "-u"; user])
         (cephEnv clusterName adminName adminKey monitors).

Definition destroyCommand (clusterName adminName adminKey : string)
    (monitors : list string) (share user : string) : Cmd :=
  setEnv (Command provisionCmd ["-r"; "-n"; share; "-u"; user])
         (cephEnv clusterName adminName adminKey monitors).

Definition credentialName (user : string) : string :=
  "ceph-" +:+ user +:+ "-secret".

(** The share and the user a [Provision] call that starts in [w] makes up. *)
Definition shareFor (uuidSource : nat → string) (w : World) : string :=
  "kubernetes-dynamic-pvc-" +:+ uuidSource (uuidsDrawn w).

Definition userFor (uuidSource : nat → string) (w : World) : string :=
  "kubernetes-dynamic-user-" +:+ uuidSource (S (uuidsDrawn w)).

(** A volume with the annotation that names its storage class, which the
    controller adds to what [Provision] returns before it stores it. *)
Definition withClass (className : string) (pv : v1.PersistentVolume)
    : v1.PersistentVolume :=
  {| v1.Meta :=
       {| v1.Name := v1.Name (v1.Meta pv);
          v1.Namespace := v1.Namespace (v1.Meta pv);
          v1.Annotations :=
            <["volume.beta.kubernetes.io/storage-class" := className]>
              (v1.Annotations (v1.Meta pv)) |};
     v1.Spec := v1.Spec pv |}.

(** The bundle gives the setting [f] the value [v]: by an entry under the
    key of [f], or, without such an entry, by the default [dflt]. *)
Definition settingIs (ToLower : string → string)
    (parameters : list (string * string)) (f : setting) (dflt v : string)
    : Prop :=
  (∃ k, (k, v) ∈ parameters ∧ ToLower k = settingKey f)
  ∨ ((∀ k v', (k, v') ∈ parameters → ToLower k ≠ settingKey f) ∧ v = dflt).

(** [w'] is [w] as a later call finds it: as reachable, with the same
    subprocesses spawned, and holding every secret of [w], whose entries Go
    may now visit in another order. *)
Definition revisited (w w' : World) : Prop :=
  apiReachable w' = apiReachable w
  ∧ spawned w' = spawned w
  ∧ ∀ key secret,
      secrets w !! key = Some secret →
      ∃ secret', secrets w' !! key = Some secret'
                 ∧ v1.Data secret' ≡ₚ v1.Data secret.

(** * Properties *)

(** ** The [Go] monad *)

Lemma bind_returns {A B} (m : Go A) (k : A → Go B) w a w' :
  m w = (returns a, w') → bind m k w = k a w'.
Proof. intros H. unfold bind. by rewrite H. Qed.

(** ** Strings *)

Lemma Split_length (s : string) (sep : ascii) :
  (1 ≤ length (strings.Split s sep))%nat.
Proof.
  induction s as [|c s IH]; simpl; [lia|].
  destruct (Ascii.eqb c sep); simpl; [lia|].
  destruct (strings.Split s sep); simpl in *; lia.
Qed.

Lemma IndexFrom_slash (s : string) (i : Z) :
  (strings.IndexFrom i s "/" = -1 ∧ free_of "/" s) ∨
  ∃ pre suf, s = pre +:+ String "/" suf ∧ free_of "/" pre ∧
             strings.IndexFrom i s "/" = i + Z.of_nat (String.length pre).
Proof.
  revert i. induction s as [|c s IH]; intros i.
  - left. split; [done|]. unfold free_of; simpl. apply not_elem_of_nil.
  - cbn [strings.IndexFrom strings.HasPrefix].
    destruct (Ascii.eqb_spec "/" c) as [<-|Hne].
    + right. exists EmptyString; exists s. split; [done|]. split.
      * unfold free_of; simpl; apply not_elem_of_nil.
      * destruct s; simpl; lia.
    + destruct (IH (i + 1)) as [[-> Hfree]|(pre & suf & -> & Hfree & Hidx)].
      * left. split; [done|].
        unfold free_of in *. simpl. by rewrite not_elem_of_cons.
      * right. exists (String c pre); exists suf. split; [done|]. split.
        -- unfold free_of in *. simpl. by rewrite not_elem_of_cons.
        -- rewrite Hidx. simpl String.length. lia.
Qed.

Lemma drop_bytes_app (pre s : string) :
  drop_bytes (String.length pre) (pre +:+ s) = s.
Proof. induction pre as [|c pre IH]; simpl; [by destruct s|done]. Qed.

Lemma Index_slash_found (s : string) :
  (strings.Index s "/" = -1 ∧ free_of "/" s) ∨
  ∃ pre suf, s = pre +:+ String "/" suf ∧ free_of "/" pre ∧
             strings.Index s "/" = Z.of_nat (String.length pre).
Proof.
  unfold strings.Index.
  destruct (IndexFrom_slash s 0) as [?|(pre & suf & ? & ? & Hidx)];
    [by left|].
  right. exists pre; exists suf. by rewrite Hidx.
Qed.

(** [s[strings.Index(s, "/"):]]: when the slice is in range it is the
    suffix of [s] that starts at the first ["/"]; it is out of range
    exactly when [s] has no ["/"]. *)
Lemma slice_from_Index_slash (s : string) :
  (free_of "/" s ∧ slice_from s (strings.Index s "/") = None) ∨
  ∃ pre suf, s = pre +:+ String "/" suf ∧ free_of "/" pre ∧
             slice_from s (strings.Index s "/") = Some (String "/" suf).
Proof.
  destruct (Index_slash_found s) as [[-> ?]|(pre & suf & -> & ? & Hidx)].
  - by left.
  - right. exists pre; exists suf. split; [done|]. split; [done|].
    rewrite Hidx. unfold slice_from.
    assert (String.length (pre +:+ String "/" suf)
            = (String.length pre + S (String.length suf))%nat) as Hlen.
    { clear. induction pre; simpl; [done|]. by f_equal. }
    rewrite Hlen.
    destruct (Z.ltb_spec (Z.of_nat (String.length pre)) 0); [lia|].
    destruct (Z.ltb_spec
                (Z.of_nat (String.length pre + S (String.length suf)))
                (Z.of_nat (String.length pre))); [lia|].
    simpl. by rewrite Nat2Z.id, drop_bytes_app.
Qed.

(** ** Parameter and credential resolution *)

Section Resolution.

Variable ToLower : string → string.

(** [parsePVSecret] always returns, and leaves the world as it was. *)
Lemma parsePVSecret_returns p namespace secretName w :
  ∃ v err, parsePVSecret p namespace secretName w = (returns (v, err), w).
Proof.
  unfold parsePVSecret. destruct (client p) as [c|]; [|by eexists _, _].
  unfold bind, SecretsGet, ret.
  destruct (apiReachable w); [|by eexists _, _].
  destruct (secrets w !! (namespace, secretName)) as [s|]; [|by eexists _, _].
  destruct (v1.Data s) as [|[k v] rest]; by eexists _, _.
Qed.

Lemma not_recognized_inv (lk : string) :
  lk ∉ recognizedKeys ↔
  lk ≠ "cluster" ∧ lk ≠ "monitors" ∧ lk ≠ "adminid"
  ∧ lk ≠ "adminsecretname" ∧ lk ≠ "adminsecretnamespace".
Proof.
  unfold recognizedKeys.
  rewrite !not_elem_of_cons. pose proof (not_elem_of_nil lk). tauto.
Qed.

(** One step of the loop, by the case of the [switch] it takes. *)
Ltac switch_on k :=
  cbn [rangeParameters];
  destruct (String.eqb_spec (ToLower k) "cluster");
  [|destruct (String.eqb_spec (ToLower k) "monitors");
    [|destruct (String.eqb_spec (ToLower k) "adminid");
      [|destruct (String.eqb_spec (ToLower k) "adminsecretname");
        [|destruct (String.eqb_spec (ToLower k) "adminsecretnamespace")]]]].

Lemma rangeParameters_unrecognized parameters :
  ∀ k v l, (k, v) ∈ parameters → ToLower k ∉ recognizedKeys →
    ∃ k', (∃ v', (k', v') ∈ parameters) ∧ (ToLower k' ∉ recognizedKeys) ∧
          rangeParameters ToLower parameters l
          = inr (fmt_Errorf "invalid option %q" [op_string k']).
Proof.
  induction parameters as [|[k0 v0] rest IH]; intros k v l Hin Hk.
  - by apply elem_of_nil in Hin.
  - assert (ToLower k0 ∈ recognizedKeys → ∀ l0,
              ∃ k', (∃ v', (k', v') ∈ (k0, v0) :: rest)
              ∧ (ToLower k' ∉ recognizedKeys)
              ∧ rangeParameters ToLower rest l0
                = inr (fmt_Errorf "invalid option %q" [op_string k']))
      as Hgo.
    { intros H0 l0.
      assert ((k, v) ∈ rest) as Hrest.
      { apply elem_of_cons in Hin as [Heq|Hin]; [|done].
        injection Heq as -> ->. done. }
      destruct (IH k v l0 Hrest Hk) as (k' & [v' ?] & ? & ?).
      exists k'. split; [|done]. exists v'. by apply list_elem_of_further. }
    switch_on k0;
      try (apply Hgo; unfold recognizedKeys;
           match goal with H : ToLower k0 = _ |- _ => rewrite H end;
           repeat constructor).
    exists k0. split; [exists v0; apply list_elem_of_here|].
    split; [|done]. by apply not_recognized_inv.
Qed.

(** Without a [monitors] key the loop leaves [mon] as it was. *)
Lemma rangeParameters_no_monitors parameters :
  ∀ l l', (∀ k v, (k, v) ∈ parameters → ToLower k ≠ "monitors") →
    rangeParameters ToLower parameters l = inl l' → mon l' = mon l.
Proof.
  induction parameters as [|[k0 v0] rest IH]; intros l l' Hno.
  - cbn. by intros [= ->].
  - assert (∀ k v, (k, v) ∈ rest → ToLower k ≠ "monitors") as Hrest
      by (intros k v ?; apply (Hno k v); by apply list_elem_of_further).
    assert (ToLower k0 ≠ "monitors") as Hk0
      by (apply (Hno k0 v0); apply list_elem_of_here).
    switch_on k0; try done;
      intros Hrun; by rewrite (IH _ _ Hrest Hrun).
Qed.

(** With a [monitors] key the loop, when it runs to its end, leaves at
    least one entry in [mon]. *)
Lemma rangeParameters_mon_grows parameters :
  ∀ l l', rangeParameters ToLower parameters l = inl l' →
    (length (mon l) ≤ length (mon l'))%nat.
Proof.
  induction parameters as [|[k0 v0] rest IH]; intros l l'.
  - cbn. by intros [= ->].
  - switch_on k0; try done; intros Hrun; apply IH in Hrun; cbn in Hrun;
      try done.
    rewrite length_app in Hrun. lia.
Qed.

Lemma rangeParameters_monitors parameters :
  ∀ k v l l', (k, v) ∈ parameters → ToLower k = "monitors" →
    rangeParameters ToLower parameters l = inl l' →
    (1 ≤ length (mon l'))%nat.
Proof.
  induction parameters as [|[k0 v0] rest IH]; intros k v l l' Hin Hk.
  - by apply elem_of_nil in Hin.
  - apply elem_of_cons in Hin as [Heq|Hin].
    + injection Heq as <- <-.
      cbn [rangeParameters].
      destruct (String.eqb_spec (ToLower k) "cluster") as [Hc|_];
        [by rewrite Hk in Hc|].
      destruct (String.eqb_spec (ToLower k) "monitors") as [_|Hm]; [|done].
      intros Hrun. apply rangeParameters_mon_grows in Hrun. cbn in Hrun.
      rewrite length_app in Hrun. pose proof (Split_length v ","). lia.
    + switch_on k0; try done; intros Hrun; by eapply IH.
Qed.

(** The loop is left early with one error only. *)
Lemma rangeParameters_error parameters :
  ∀ l e, rangeParameters ToLower parameters l = inr e →
         ∃ k, e = fmt_Errorf "invalid option %q" [op_string k].
Proof.
  induction parameters as [|[k0 v0] rest IH]; intros l e; [done|].
  switch_on k0; try apply IH. intros [= <-]. by exists k0.
Qed.

(** [parseParameters] always returns, leaves the world as it was, hands
    back no value next to an error, and fails with [fmt.Errorf] only. *)
Lemma parseParameters_returns p parameters w :
  ∃ clusterName adminName adminKey monitors err,
    parseParameters ToLower p parameters w
    = (returns (clusterName, adminName, adminKey, monitors, err), w)
    ∧ (∀ e, err = Some e →
         clusterName = "" ∧ adminName = "" ∧ adminKey = "" ∧ monitors = []
         ∧ ∃ format operands, e = fmt_Errorf format operands).
Proof.
  unfold parseParameters.
  destruct (rangeParameters ToLower parameters initialLocals)
    as [l|e] eqn:Hrun.
  - destruct (String.eqb (adminSecretName l) "").
    + eexists _, _, _, _, _. split; [done|].
      intros e [= <-]. by eauto 10.
    + destruct (parsePVSecret_returns p (adminSecretNamespace l)
                  (adminSecretName l) w) as (v & err & Hget).
      rewrite (bind_returns _ _ _ _ _ Hget).
      destruct err as [e|].
      { eexists _, _, _, _, _. split; [done|].
        intros e' [= <-]. by eauto 10. }
      destruct (length (mon l) <? 1)%nat; eexists _, _, _, _, _;
        (split; [done|]); [|done].
      intros e [= <-]. by eauto 10.
  - apply rangeParameters_error in Hrun as [k ->].
    eexists _, _, _, _, _. split; [done|].
    intros e [= <-]. by eauto 10.
Qed.

Lemma parseParameters_world p parameters w r w' :
  parseParameters ToLower p parameters w = (r, w') → w' = w.
Proof.
  destruct (parseParameters_returns p parameters w)
    as (? & ? & ? & ? & ? & -> & _).
  by intros [= _ <-].
Qed.

(** Parameters resolve through a client only. *)
Lemma parseParameters_client p parameters w r w' :
  parseParameters ToLower p parameters w = (returns (r, None), w') →
  client p ≠ None.
Proof.
  unfold parseParameters, parsePVSecret. intros Hrun Hnil.
  rewrite Hnil in Hrun.
  destruct (rangeParameters ToLower parameters initialLocals); [|done].
  by destruct (String.eqb (adminSecretName l) "").
Qed.

(** C4. A bundle with a key outside the recognized set (compared after
    lower-casing) makes parameter resolution fail, whatever the order in
    which the entries are visited: the error names an unrecognized key of
    the bundle, and every other result is the zero value, so that no
    recognized key of the bundle is applied. The world is untouched. *)
Theorem unrecognized_key_fails_closed p parameters w k v :
  (k, v) ∈ parameters → ToLower k ∉ recognizedKeys →
  ∃ k', (∃ v', (k', v') ∈ parameters) ∧ (ToLower k' ∉ recognizedKeys) ∧
        parseParameters ToLower p parameters w
        = (returns ("", "", "", [],
                    Some (fmt_Errorf "invalid option %q" [op_string k'])),
           w).
Proof.
  intros Hin Hk.
  destruct (rangeParameters_unrecognized parameters k v initialLocals Hin Hk)
    as (k' & Hk' & Hnot & Hrun).
  exists k'. split; [done|]. split; [done|].
  unfold parseParameters. by rewrite Hrun.
Qed.

(** C1, as amended. A bundle without a [monitors] key (compared after
    lower-casing) makes parameter resolution fail with an error and the
    zero value for every other result; and a resolution that succeeds
    hands back at least one monitor entry. (An entry may be the empty
    string: the pieces of the value are not filtered.) *)
Theorem missing_monitors_fails p parameters w :
  ((∀ k v, (k, v) ∈ parameters → ToLower k ≠ "monitors") →
   ∃ e, parseParameters ToLower p parameters w
        = (returns ("", "", "", [], Some e), w))
  ∧ (∀ clusterName adminName adminKey monitors w',
       parseParameters ToLower p parameters w
       = (returns (clusterName, adminName, adminKey, monitors, None), w') →
       (1 ≤ length monitors)%nat).
Proof.
  split.
  - intros Hno. unfold parseParameters.
    destruct (rangeParameters ToLower parameters initialLocals)
      as [l|e] eqn:Hrun; [|by eexists].
    apply rangeParameters_no_monitors in Hrun; [|done]. cbn in Hrun.
    destruct (String.eqb (adminSecretName l) ""); [by eexists|].
    destruct (parsePVSecret_returns p (adminSecretNamespace l)
                (adminSecretName l) w) as (v & err & Hget).
    rewrite (bind_returns _ _ _ _ _ Hget).
    destruct err as [e|]; [by eexists|].
    rewrite Hrun. cbn. by eexists.
  - intros clusterName adminName adminKey monitors w'.
    unfold parseParameters.
    destruct (rangeParameters ToLower parameters initialLocals)
      as [l|e]; [|done].
    destruct (String.eqb (adminSecretName l) ""); [done|].
    destruct (parsePVSecret_returns p (adminSecretNamespace l)
                (adminSecretName l) w) as (v & err & Hget).
    rewrite (bind_returns _ _ _ _ _ Hget).
    destruct err as [e|]; [done|].
    destruct (Nat.ltb_spec (length (mon l)) 1); [done|].
    intros [= _ _ _ <- _]. done.
Qed.

(** C7. When the client is set, the store can be reached and the secret
    exists with at least one entry, [parsePVSecret] returns the value of
    one entry of the secret's data, whatever its key; and it fails exactly
    when the store cannot be reached (no client, or the request fails),
    the secret does not exist, or its data has no entry. *)
Theorem parsePVSecret_any_entry p namespace secretName w :
  (∀ s, client p ≠ None → apiReachable w = true →
        secrets w !! (namespace, secretName) = Some s → v1.Data s ≠ [] →
        ∃ k v, (k, v) ∈ v1.Data s ∧
               parsePVSecret p namespace secretName w = (returns (v, None), w))
  ∧ ((∃ v e, parsePVSecret p namespace secretName w
             = (returns (v, Some e), w))
     ↔ (client p = None ∨ apiReachable w = false
        ∨ secrets w !! (namespace, secretName) = None
        ∨ ∃ s, secrets w !! (namespace, secretName) = Some s
               ∧ v1.Data s = [])).
Proof.
  unfold parsePVSecret, bind, SecretsGet, ret. split.
  - intros s Hc Hup Hs Hdata.
    destruct (client p) as [c|]; [|done]. rewrite Hup, Hs.
    destruct (v1.Data s) as [|[k v] rest]; [done|].
    exists k; exists v. split; [apply list_elem_of_here|done].
  - destruct (client p) as [c|]; [|split; [by left|by eexists _, _]].
    destruct (apiReachable w);
      [|split; [by right; left|by eexists _, _]].
    destruct (secrets w !! (namespace, secretName)) as [s|];
      [|split; [by right; right; left|by eexists _, _]].
    destruct (v1.Data s) as [|[k v] rest] eqn:Hdata.
    + split; [|by eexists _, _]. intros _. right; right; right.
      by exists s.
    + split; [by intros (? & ? & [=])|].
      intros [?|[?|[?|(s' & [= <-] & Hnil)]]]; try done.
      by rewrite Hdata in Hnil.
Qed.

(** *** What the loop computes *)

Lemma recognized_inv (lk : string) :
  lk ∈ recognizedKeys →
  lk = "cluster" ∨ lk = "monitors" ∨ lk = "adminid"
  ∨ lk = "adminsecretname" ∨ lk = "adminsecretnamespace".
Proof.
  unfold recognizedKeys. rewrite !elem_of_cons, elem_of_nil. tauto.
Qed.

(** With recognized keys only, the loop runs to its end. *)
Lemma rangeParameters_recognized parameters :
  ∀ l, (∀ k v, (k, v) ∈ parameters → ToLower k ∈ recognizedKeys) →
       ∃ l', rangeParameters ToLower parameters l = inl l'.
Proof.
  induction parameters as [|[k0 v0] rest IH]; intros l Hall; [by eexists|].
  assert (∀ k v, (k, v) ∈ rest → ToLower k ∈ recognizedKeys) as Hrest
    by (intros k v ?; apply (Hall k v); by apply list_elem_of_further).
  pose proof (recognized_inv _ (Hall k0 v0 (list_elem_of_here _ _))) as Hk0.
  switch_on k0; try by apply IH.
  by destruct Hk0 as [?|[?|[?|[?|?]]]].
Qed.

(** A setting without a key in the bundle keeps its value. *)
Lemma rangeParameters_absent f parameters :
  ∀ l l', (∀ k v, (k, v) ∈ parameters → ToLower k ≠ settingKey f) →
          rangeParameters ToLower parameters l = inl l' →
          settingOf f l' = settingOf f l.
Proof.
  induction parameters as [|[k0 v0] rest IH]; intros l l' Hno.
  - cbn. by intros [= ->].
  - assert (∀ k v, (k, v) ∈ rest → ToLower k ≠ settingKey f) as Hrest
      by (intros k v ?; apply (Hno k v); by apply list_elem_of_further).
    pose proof (Hno k0 v0 (list_elem_of_here _ _)) as Hk0.
    switch_on k0; try done; intros Hrun; rewrite (IH _ _ Hrest Hrun);
      by destruct f.
Qed.

(** When no two keys agree after lower-casing, a setting with a key in the
    bundle gets the value under that key. *)
Lemma rangeParameters_present f parameters :
  ∀ k v l l', NoDup (loweredKeys ToLower parameters) →
              (k, v) ∈ parameters → ToLower k = settingKey f →
              rangeParameters ToLower parameters l = inl l' →
              settingOf f l' = v.
Proof.
  induction parameters as [|[k0 v0] rest IH]; intros k v l l' Hnodup Hin Hk.
  - by apply elem_of_nil in Hin.
  - apply NoDup_cons in Hnodup as [Hfresh Hnodup]. cbn in Hfresh.
    apply elem_of_cons in Hin as [Heq|Hin].
    + injection Heq as <- <-.
      assert (∀ k' v', (k', v') ∈ rest → ToLower k' ≠ settingKey f) as Hno.
      { intros k' v' Hin' Heq. apply Hfresh. rewrite Hk, <- Heq.
        unfold loweredKeys. apply list_elem_of_fmap. by exists (k', v'). }
      switch_on k; intros Hrun;
        try (rewrite (rangeParameters_absent f _ _ _ Hno Hrun));
        destruct f; cbn in *; congruence.
    + switch_on k0; try done; by apply (IH k v).
Qed.

Lemma rangeParameters_present_monitors parameters :
  ∀ k v l l', NoDup (loweredKeys ToLower parameters) →
              (k, v) ∈ parameters → ToLower k = "monitors" →
              rangeParameters ToLower parameters l = inl l' →
              mon l' = mon l ++ strings.Split v ",".
Proof.
  induction parameters as [|[k0 v0] rest IH]; intros k v l l' Hnodup Hin Hk.
  - by apply elem_of_nil in Hin.
  - apply NoDup_cons in Hnodup as [Hfresh Hnodup]. cbn in Hfresh.
    apply elem_of_cons in Hin as [Heq|Hin].
    + injection Heq as <- <-.
      assert (∀ k' v', (k', v') ∈ rest → ToLower k' ≠ "monitors") as Hno.
      { intros k' v' Hin' Heq. apply Hfresh. rewrite Hk, <- Heq.
        unfold loweredKeys. apply list_elem_of_fmap. by exists (k', v'). }
      switch_on k; try congruence. intros Hrun.
      by rewrite (rangeParameters_no_monitors _ _ _ Hno Hrun).
    + assert (ToLower k0 ≠ "monitors") as Hk0.
      { intros Heq. apply Hfresh. rewrite Heq, <- Hk.
        unfold loweredKeys. apply list_elem_of_fmap. by exists (k, v). }
      switch_on k0; try done; intros Hrun;
        by rewrite (IH k v _ _ Hnodup Hin Hk Hrun).
Qed.

(** Two neighbouring entries with recognized keys that differ after
    lower-casing can be visited in either order. *)
Lemma rangeParameters_swap k1 v1 k2 v2 rest l :
  ToLower k1 ≠ ToLower k2 →
  ToLower k1 ∈ recognizedKeys → ToLower k2 ∈ recognizedKeys →
  rangeParameters ToLower ((k1, v1) :: (k2, v2) :: rest) l
  = rangeParameters ToLower ((k2, v2) :: (k1, v1) :: rest) l.
Proof.
  intros Hne H1 H2. apply recognized_inv in H1, H2.
  cbn [rangeParameters].
  repeat match goal with
         | |- context [String.eqb ?a ?b] => destruct (String.eqb_spec a b)
         end;
    try congruence; try reflexivity.
  all: exfalso; destruct H1 as [?|[?|[?|[?|?]]]]; try done;
    by destruct H2 as [?|[?|[?|[?|?]]]].
Qed.

Lemma rangeParameters_permutation parameters parameters' :
  parameters ≡ₚ parameters' →
  NoDup (loweredKeys ToLower parameters) →
  (∀ k v, (k, v) ∈ parameters → ToLower k ∈ recognizedKeys) →
  ∀ l, rangeParameters ToLower parameters l
       = rangeParameters ToLower parameters' l.
Proof.
  induction 1 as [|[k0 v0] ps ps' Hperm IH|[k1 v1] [k2 v2] ps
                  |ps ps' ps'' Hperm IH Hperm' IH']; intros Hnodup Hall l.
  - done.
  - apply NoDup_cons in Hnodup as [_ Hnodup].
    assert (∀ k v, (k, v) ∈ ps → ToLower k ∈ recognizedKeys) as Hrest
      by (intros k v ?; apply (Hall k v); by apply list_elem_of_further).
    switch_on k0; try done; by apply IH.
  - apply rangeParameters_swap.
    + apply NoDup_cons in Hnodup as [Hfresh _]. cbn in Hfresh.
      intros Heq. apply Hfresh. rewrite Heq. apply list_elem_of_here.
    + apply (Hall k2 v2). apply list_elem_of_here.
    + apply (Hall k1 v1). apply list_elem_of_further, list_elem_of_here.
  - rewrite IH by done. apply IH'.
    + unfold loweredKeys. by rewrite <- Hperm.
    + intros k v Hin. apply (Hall k v). by rewrite Hperm.
Qed.

(** X1. The order in which Go visits the map does not matter when every
    key is recognized and no two keys agree after lower-casing: two
    visiting orders of one bundle give the same results. *)
Theorem resolution_order_independent p parameters parameters' w :
  parameters ≡ₚ parameters' →
  NoDup (loweredKeys ToLower parameters) →
  (∀ k v, (k, v) ∈ parameters → ToLower k ∈ recognizedKeys) →
  parseParameters ToLower p parameters w
  = parseParameters ToLower p parameters' w.
Proof.
  intros Hperm Hnodup Hall. unfold parseParameters.
  by rewrite (rangeParameters_permutation _ _ Hperm Hnodup Hall).
Qed.

Lemma rangeParameters_setting f parameters l l' v :
  NoDup (loweredKeys ToLower parameters) →
  settingIs ToLower parameters f (settingOf f l) v →
  rangeParameters ToLower parameters l = inl l' →
  settingOf f l' = v.
Proof.
  intros Hnodup [(k & Hin & Hk)|[Hno ->]] Hrun.
  - by apply (rangeParameters_present f parameters k v l l').
  - by apply (rangeParameters_absent f parameters l l').
Qed.

Lemma parseParameters_monitors p parameters w c a s m w' k v :
  NoDup (loweredKeys ToLower parameters) →
  parseParameters ToLower p parameters w = (returns (c, a, s, m, None), w') →
  (k, v) ∈ parameters → ToLower k = "monitors" →
  m = strings.Split v ",".
Proof.
  intros Hnodup Hp Hin Hk. revert Hp. unfold parseParameters.
  destruct (rangeParameters ToLower parameters initialLocals)
    as [l|e] eqn:Hrun; [|done].
  destruct (String.eqb (adminSecretName l) ""); [done|].
  destruct (parsePVSecret_returns p (adminSecretNamespace l)
              (adminSecretName l) w) as (x & err & Hget).
  rewrite (bind_returns _ _ _ _ _ Hget).
  destruct err as [e|]; [done|].
  destruct (length (mon l) <? 1)%nat; [done|].
  intros [= _ _ _ <- _].
  by rewrite (rangeParameters_present_monitors _ k v _ _ Hnodup Hin Hk Hrun).
Qed.

(** X2. With keys that differ after lower-casing, a resolution that
    succeeds hands back, for the cluster and for the admin id, the value
    under the key or else the default (["ceph"], ["admin"]), and for the
    monitors the pieces of the value under [monitors], split on commas. *)
Theorem resolved_settings p parameters w clusterName adminName adminKey
    monitors w' :
  NoDup (loweredKeys ToLower parameters) →
  parseParameters ToLower p parameters w
  = (returns (clusterName, adminName, adminKey, monitors, None), w') →
  (∀ v, settingIs ToLower parameters Cluster "ceph" v → clusterName = v)
  ∧ (∀ v, settingIs ToLower parameters AdminID "admin" v → adminName = v)
  ∧ (∀ k v, (k, v) ∈ parameters → ToLower k = "monitors" →
            monitors = strings.Split v ",").
Proof.
  intros Hnodup. unfold parseParameters.
  destruct (rangeParameters ToLower parameters initialLocals)
    as [l|e] eqn:Hrun; [|done].
  destruct (String.eqb (adminSecretName l) ""); [done|].
  destruct (parsePVSecret_returns p (adminSecretNamespace l)
              (adminSecretName l) w) as (x & err & Hget).
  rewrite (bind_returns _ _ _ _ _ Hget).
  destruct err as [e|]; [done|].
  destruct (length (mon l) <? 1)%nat; [done|].
  intros [= <- <- _ <- _]. repeat split.
  - intros v Hv.
    by apply (rangeParameters_setting Cluster _ initialLocals _ _ Hnodup Hv).
  - intros v Hv.
    by apply (rangeParameters_setting AdminID _ initialLocals _ _ Hnodup Hv).
  - intros k v Hin Hk.
    by rewrite (rangeParameters_present_monitors _ k v _ _ Hnodup Hin Hk Hrun).
Qed.

Lemma parsePVSecret_success p namespace secretName w v w' :
  parsePVSecret p namespace secretName w = (returns (v, None), w') →
  ∃ secret key, secrets w !! (namespace, secretName) = Some secret
                ∧ (key, v) ∈ v1.Data secret.
Proof.
  unfold parsePVSecret, bind, SecretsGet, ret.
  destruct (client p) as [c|]; [|done].
  destruct (apiReachable w); [|done].
  destruct (secrets w !! (namespace, secretName)) as [secret|]; [|done].
  destruct (v1.Data secret) as [|[key data] rest] eqn:Hdata; [done|].
  intros [= <- _]. exists secret; exists key. split; [done|].
  rewrite Hdata. apply list_elem_of_here.
Qed.

(** X3. The admin key of a resolution that succeeds is the value of an
    entry of the secret stored under the name the bundle gives for
    [adminSecretName], in the namespace it gives for
    [adminSecretNamespace] or else in ["default"]. *)
Theorem resolved_admin_secret p parameters w clusterName adminName adminKey
    monitors w' namespace name :
  NoDup (loweredKeys ToLower parameters) →
  parseParameters ToLower p parameters w
  = (returns (clusterName, adminName, adminKey, monitors, None), w') →
  settingIs ToLower parameters AdminSecretNamespace "default" namespace →
  settingIs ToLower parameters AdminSecretName "" name →
  ∃ secret key, secrets w !! (namespace, name) = Some secret
                ∧ (key, adminKey) ∈ v1.Data secret.
Proof.
  intros Hnodup Hparse Hns Hname. revert Hparse. unfold parseParameters.
  destruct (rangeParameters ToLower parameters initialLocals)
    as [l|e] eqn:Hrun; [|done].
  rewrite (rangeParameters_setting AdminSecretNamespace _ initialLocals _ _
             Hnodup Hns Hrun
           : adminSecretNamespace l = namespace).
  rewrite (rangeParameters_setting AdminSecretName _ initialLocals _ _
             Hnodup Hname Hrun
           : adminSecretName l = name).
  destruct (String.eqb name ""); [done|].
  destruct (parsePVSecret_returns p namespace name w) as (x & err & Hget).
  rewrite (bind_returns _ _ _ _ _ Hget).
  destruct err as [e|]; [done|].
  destruct (length (mon l) <? 1)%nat; [done|].
  intros [= _ _ <- _ _]. by apply (parsePVSecret_success p _ _ w x w).
Qed.

Lemma rangeParameters_no_secret_name parameters :
  ∀ l l', (∀ k v, (k, v) ∈ parameters →
                  ToLower k = "adminsecretname" → v = "") →
          rangeParameters ToLower parameters l = inl l' →
          adminSecretName l = "" → adminSecretName l' = "".
Proof.
  induction parameters as [|[k0 v0] rest IH]; intros l l' Hempty.
  - cbn. by intros [= ->].
  - assert (∀ k v, (k, v) ∈ rest → ToLower k = "adminsecretname" → v = "")
      as Hrest
      by (intros k v ?; apply (Hempty k v); by apply list_elem_of_further).
    pose proof (Hempty k0 v0 (list_elem_of_here _ _)) as Hk0.
    switch_on k0; try done; intros Hrun Hl; by apply (IH _ _ Hrest Hrun); auto.
Qed.

(** X4. A bundle of recognized keys that names no admin secret (no
    [adminSecretName] entry, or only empty ones) fails with the error
    "missing Ceph admin secret name", whatever the secret store holds and
    whether or not monitors are given. *)
Theorem missing_secret_name_fails p parameters w :
  (∀ k v, (k, v) ∈ parameters → ToLower k ∈ recognizedKeys) →
  (∀ k v, (k, v) ∈ parameters → ToLower k = "adminsecretname" → v = "") →
  parseParameters ToLower p parameters w
  = (returns ("", "", "", [],
              Some (fmt_Errorf "missing Ceph admin secret name" [])), w).
Proof.
  intros Hall Hempty. unfold parseParameters.
  destruct (rangeParameters_recognized parameters initialLocals Hall)
    as [l Hrun].
  rewrite Hrun.
  by rewrite (rangeParameters_no_secret_name _ _ _ Hempty Hrun eq_refl).
Qed.

(** X5. When the admin secret cannot be read, resolution fails with an
    error that carries the namespace, the name and the error of the
    lookup; it does so before it looks at the monitors. *)
Theorem admin_secret_failure_reported p parameters w namespace name x e :
  NoDup (loweredKeys ToLower parameters) →
  (∀ k v, (k, v) ∈ parameters → ToLower k ∈ recognizedKeys) →
  settingIs ToLower parameters AdminSecretNamespace "default" namespace →
  settingIs ToLower parameters AdminSecretName "" name →
  name ≠ "" →
  parsePVSecret p namespace name w = (returns (x, Some e), w) →
  parseParameters ToLower p parameters w
  = (returns ("", "", "", [],
              Some (fmt_Errorf "failed to get admin secret from [%q/%q]: %v"
                      [op_string namespace; op_string name; op_error e])),
     w).
Proof.
  intros Hnodup Hall Hns Hname Hne Hget. unfold parseParameters.
  destruct (rangeParameters_recognized parameters initialLocals Hall)
    as [l Hrun].
  rewrite Hrun.
  rewrite (rangeParameters_setting AdminSecretNamespace _ initialLocals _ _
             Hnodup Hns Hrun
           : adminSecretNamespace l = namespace).
  rewrite (rangeParameters_setting AdminSecretName _ initialLocals _ _
             Hnodup Hname Hrun
           : adminSecretName l = name).
  destruct (String.eqb_spec name ""); [done|].
  by rewrite (bind_returns _ _ _ _ _ Hget).
Qed.

(** A loop that runs to its end has met recognized keys only. *)
Lemma rangeParameters_all_recognized parameters l l' :
  rangeParameters ToLower parameters l = inl l' →
  ∀ k v, (k, v) ∈ parameters → ToLower k ∈ recognizedKeys.
Proof.
  intros Hrun k v Hin.
  destruct (decide (ToLower k ∈ recognizedKeys)) as [|Hnot]; [done|].
  destruct (rangeParameters_unrecognized parameters k v l Hin Hnot)
    as (k' & _ & _ & Hfail).
  congruence.
Qed.

(** What the loop leaves in a setting is what the bundle gives it. *)
Lemma settingIs_resolved f parameters l l' :
  NoDup (loweredKeys ToLower parameters) →
  rangeParameters ToLower parameters l = inl l' →
  settingIs ToLower parameters f (settingOf f l) (settingOf f l').
Proof.
  intros Hnodup Hrun.
  destruct (decide (settingKey f ∈ loweredKeys ToLower parameters))
    as [Hin|Hnot].
  - left. unfold loweredKeys in Hin.
    apply list_elem_of_fmap in Hin as ([k v] & Hk & Hin). cbn in Hk.
    exists k. split; [|done].
    by rewrite (rangeParameters_present f parameters k v l l').
  - right. assert (∀ k v, (k, v) ∈ parameters → ToLower k ≠ settingKey f)
      as Hno.
    { intros k v Hin Hk. apply Hnot. rewrite <- Hk. unfold loweredKeys.
      apply list_elem_of_fmap. by exists (k, v). }
    split; [done|]. by apply (rangeParameters_absent f parameters l l').
Qed.

(** Resolution reads the world only through the admin secret. It gives
    the same results when the bundle is visited in another order, in a
    world that is as reachable and holds the same secrets, their entries
    visited in another order, provided no two keys agree after lower-casing
    and the admin secret has one entry. *)
Lemma parseParameters_revisited p parameters parameters' w w' c a s m :
  parseParameters ToLower p parameters w = (returns (c, a, s, m, None), w) →
  parameters ≡ₚ parameters' →
  NoDup (loweredKeys ToLower parameters) →
  apiReachable w' = apiReachable w →
  (∀ key secret,
     secrets w !! key = Some secret →
     ∃ secret', secrets w' !! key = Some secret'
                ∧ v1.Data secret' ≡ₚ v1.Data secret) →
  (∀ namespace name secret,
     settingIs ToLower parameters AdminSecretNamespace "default" namespace →
     settingIs ToLower parameters AdminSecretName "" name →
     secrets w !! (namespace, name) = Some secret →
     length (v1.Data secret) = 1%nat) →
  parseParameters ToLower p parameters' w'
  = (returns (c, a, s, m, None), w').
Proof.
  intros Hp Hperm Hnodup Hup Hkeep Hone. revert Hp.
  unfold parseParameters.
  destruct (rangeParameters ToLower parameters initialLocals)
    as [l|e] eqn:Hrun; [|done].
  rewrite <- (rangeParameters_permutation _ _ Hperm Hnodup
                (rangeParameters_all_recognized _ _ _ Hrun)), Hrun.
  destruct (String.eqb (adminSecretName l) ""); [done|].
  unfold parsePVSecret, bind, SecretsGet, ret.
  destruct (client p) as [kube|]; [|done]. rewrite Hup.
  destruct (apiReachable w); [|done].
  destruct (secrets w !! (adminSecretNamespace l, adminSecretName l))
    as [secret|] eqn:Hsecret; [|done].
  destruct (Hkeep _ _ Hsecret) as (secret' & -> & Hdata).
  pose proof (Hone _ _ secret
                (settingIs_resolved AdminSecretNamespace _ _ _ Hnodup Hrun)
                (settingIs_resolved AdminSecretName _ _ _ Hnodup Hrun)
                Hsecret) as Hlen.
  destruct (v1.Data secret) as [|[key data] [|more rest]]; try done.
  apply Permutation_singleton_r in Hdata. rewrite Hdata.
  destruct (length (mon l) <? 1)%nat; [done|].
  by intros [= <- <- <- <-].
Qed.

(** X20. Resolution never changes the world and never fails half-way:
    every call returns, in the world it started in, and with every error
    it hands back the zero value for the cluster, the admin id, the admin
    key and the monitors. *)
Theorem resolution_fails_closed p parameters w r w' :
  parseParameters ToLower p parameters w = (r, w') →
  w' = w
  ∧ ∃ clusterName adminName adminKey monitors err,
      r = returns (clusterName, adminName, adminKey, monitors, err)
      ∧ (is_Some err →
         clusterName = "" ∧ adminName = "" ∧ adminKey = ""
         ∧ monitors = []).
Proof.
  destruct (parseParameters_returns p parameters w)
    as (c & a & s & m & err & -> & Hshape).
  intros [= <- <-]. split; [done|].
  exists c; exists a; exists s; exists m; exists err. split; [done|].
  intros [failure ->].
  by destruct (Hshape failure eq_refl) as (-> & -> & -> & -> & _).
Qed.

End Resolution.

(** ** The lifecycle: [Provision] and [Delete] *)

Lemma spawned_unchanged (l : list Cmd) (c : Cmd) : l ≠ l ++ [c].
Proof.
  intros H. apply (f_equal length) in H. rewrite length_app in H.
  simpl in H. lia.
Qed.

Section Lifecycle.

Variable ToLower : string → string.
Variable Unmarshal : string → option provisionOutput → option provisionOutput.
Variable uuidSource : nat → string.
Variable agent : Cmd → string * option string.

(** Runs [Provision] by cases, one goal per way out of the function. *)
Ltac after_decoding p w :=
  lazymatch goal with
  | res : provisionOutput |- _ =>
      destruct (String.eqb_spec (User res) "") as [Huser|Huser];
      [|destruct (String.eqb_spec (Secret res) "") as [Hauth|Hauth];
        [|destruct (String.eqb_spec (Path res) "") as [Hpath|Hpath];
          [|cbn [orb]; unfold bind at 1, SecretsCreate at 1;
            destruct (client p) as [kube|] eqn:Hclient;
            [cbn [apiReachable secrets with_spawned with_uuidsDrawn];
             destruct (apiReachable w) eqn:Hreach;
             [match goal with
              | |- context [secrets w !! ?k] =>
                  destruct (secrets w !! k) eqn:Hfresh
              end;
              [|destruct (slice_from_Index_slash (Path res))
                  as [[Hfree Hslice]|(pre & suf & Hsplit & Hfree & Hslice)];
                rewrite Hslice]
             |]
            |]]]]
  end.

Ltac after_parsing p w :=
  unfold bind at 1, NewUUID at 1; unfold bind at 1, NewUUID at 1;
  unfold bind at 1, CombinedOutput at 1;
  lazymatch goal with
  | |- context [agent ?c] =>
      set (created := c) in *;
      destruct (agent created) as [output [state|]] eqn:Hagent;
      cbn [fst snd fmap option_fmap option_map];
      [|lazymatch goal with
        | |- context [Unmarshal ?data ?target] =>
            destruct (Unmarshal data target) as [res|] eqn:Hdecode;
            [after_decoding p w|]
        end]
  end.

Ltac provision_cases p options w :=
  unfold Provision;
  destruct (v1.Selector (v1.ClaimSpec (controller.PVC options)))
    as [sel|] eqn:Hselector;
  [|destruct (parseParameters_returns ToLower p
                (controller.Parameters options) w)
      as (clusterName & adminName & adminKey & monitors & err
          & Hparse & Hshape);
    rewrite (bind_returns _ _ _ _ _ Hparse);
    destruct err as [e|]; [|after_parsing p w]];
  cbn [orb ret panic].

(** A failed allocation publishes nothing, when the output decodes to a
    record: in a [Provision] call whose allocation agent fails, or prints
    output that decodes to a record with an empty [path], [user] or
    [auth], [Provision] returns an error and no volume, and the secrets in
    the store are those of before the call. *)
Theorem failed_allocation_publishes_nothing p options w r w' cmd :
  Provision ToLower Unmarshal uuidSource agent p options w = (r, w') →
  spawned w' = spawned w ++ [cmd] →
  ((agent cmd).2 ≠ None
   ∨ ∃ res, Unmarshal (agent cmd).1 (Some emptyOutput) = Some res
            ∧ hasEmptyField res) →
  (∃ e, r = returns (None, Some e)) ∧ secrets w' = secrets w.
Proof.
  provision_cases p options w.
  all: intros [= <- <-]; cbn; intros Hspawn Hfail.
  all: try by destruct (spawned_unchanged _ _ Hspawn).
  all: apply app_inj_tail in Hspawn as [_ <-]; rewrite Hagent in Hfail;
    cbn in Hfail.
  all: try (split; [by eexists|done]).
  all: destruct Hfail as [?|(res' & Hres' & Hempty)]; [done|].
  all: rewrite Hdecode in Hres'; try done.
  all: injection Hres' as <-; unfold hasEmptyField in Hempty; tauto.
Qed.

Lemma first_slash_at_head (pre suf t : string) :
  free_of "/" pre → String "/" t = pre +:+ String "/" suf → pre = "".
Proof.
  destruct pre as [|c pre]; [done|].
  intros Hfree [= <- _]. exfalso. apply Hfree. simpl.
  apply list_elem_of_here.
Qed.

(** C5. The volume a successful [Provision] returns has, as the path of
    its CephFS source, the suffix of the path the agent reported that
    starts at its first ["/"]: the reported path is [pre] followed by the
    export path, [pre] has no ["/"], and the export path begins with
    ["/"]. A reported path ["/volumes/vol1"] is kept as it is. *)
Theorem export_path_from_first_slash p options w pv w' :
  Provision ToLower Unmarshal uuidSource agent p options w
  = (returns (Some pv, None), w') →
  ∃ created res source pre,
    spawned w' = spawned w ++ [created]
    ∧ Unmarshal (agent created).1 (Some emptyOutput) = Some res
    ∧ v1.CephFS (v1.Source (v1.Spec pv)) = Some source
    ∧ Path res = pre +:+ v1.Path source
    ∧ free_of "/" pre
    ∧ strings.HasPrefix (v1.Path source) "/" = true
    ∧ (Path res = "/volumes/vol1" → v1.Path source = "/volumes/vol1").
Proof.
  provision_cases p options w.
  all: intros [= <- <-].
  eexists created, res, _, pre. cbn. rewrite Hagent. cbn.
  repeat split; try done.
  - cbn. by destruct suf.
  - cbn. intros Hvol. rewrite Hvol in Hsplit.
    by rewrite (first_slash_at_head _ _ _ Hfree Hsplit) in Hsplit.
Qed.

(** C8, as amended. A [Provision] call that reaches the allocation step
    (no selector, parameters resolved) runs the agent once, on the share
    name ["kubernetes-dynamic-pvc-"] followed by the next identifier of
    the source and the user ["kubernetes-dynamic-user-"] followed by the
    identifier after it; the call has drawn exactly these two. *)
Theorem generated_names p options w c a s m :
  v1.Selector (v1.ClaimSpec (controller.PVC options)) = None →
  parseParameters ToLower p (controller.Parameters options) w
  = (returns (c, a, s, m, None), w) →
  ∃ r w',
    Provision ToLower Unmarshal uuidSource agent p options w = (r, w')
    ∧ spawned w'
      = spawned w
        ++ [setEnv
              (Command provisionCmd
                 ["-n";
                  "kubernetes-dynamic-pvc-" +:+ uuidSource (uuidsDrawn w);
                  "-u";
                  "kubernetes-dynamic-user-"
                    +:+ uuidSource (S (uuidsDrawn w))])
              (cephEnv c a s m)]
    ∧ uuidsDrawn w' = S (S (uuidsDrawn w)).
Proof.
  intros Hsel Hp.
  provision_cases p options w.
  all: try done.
  all: rewrite Hp in Hparse; try done.
  all: injection Hparse as <- <- <- <-.
  all: by eexists _, _.
Qed.

(** Runs [Delete] by cases, one goal per way out of the function. *)
Ltac after_class_lookup p volume w :=
  lazymatch goal with
  | |- context [parseParameters ToLower p ?parameters] =>
      destruct (parseParameters_returns ToLower p parameters w)
        as (clusterName & adminName & adminKey & monitors & err
            & Hparse & Hshape);
      rewrite (bind_returns _ _ _ _ _ Hparse);
      destruct err as [e|];
      [|destruct (v1.CephFS (v1.Source (v1.Spec volume)))
          as [cephFS|] eqn:Hsource;
        [unfold bind at 1, CombinedOutput at 1;
         lazymatch goal with
         | |- context [agent ?c] =>
             set (destroyed := c) in *;
             destruct (agent destroyed) as [output [state|]] eqn:Hagent;
             cbn [fst snd fmap option_fmap option_map]
         end
        |]]
  end.

Ltac delete_cases p volume w :=
  unfold Delete;
  destruct (v1.Annotations (v1.Meta volume) !! provisionerIDAnn)
    as [ann|] eqn:Hidentity;
  [destruct (String.eqb_spec ann (identity p)) as [Hmine|Hforeign];
   cbn [negb];
   [destruct (v1.Annotations (v1.Meta volume) !! cephShareAnn)
      as [share|] eqn:Hshare;
    [unfold bind at 1, getClassForVolume at 1;
     destruct (v1.Annotations (v1.Meta volume)
                 !! "volume.beta.kubernetes.io/storage-class")
       as [className|] eqn:Hclass;
     [unfold bind at 1, StorageClassesGet at 1;
      destruct (client p) as [kube|] eqn:Hclient;
      [destruct (apiReachable w) eqn:Hreach;
       [destruct (classes w !! className) as [class|] eqn:Hfound;
        [cbn [ret]; after_class_lookup p volume w|]
       |]
      |]
     |]
    |]
   |]
  |];
  cbn [ret panic bind].

(** C3. Ownership verification has three outcomes. On a volume stamped
    with the identity of the instance and a share name, [Delete] gets past
    verification: what it hands back is neither of the verification
    errors. On a volume stamped with another identity it hands back the
    ignorable error and leaves the world as it was, so no subprocess is
    spawned. On a volume without ownership annotations it hands back a
    plain error, which is not ignorable. *)
Theorem ownership_verdict p volume w r w' :
  Delete ToLower agent p volume w = (r, w') →
  (∀ share,
     v1.Annotations (v1.Meta volume) !! provisionerIDAnn
     = Some (identity p) →
     v1.Annotations (v1.Meta volume) !! cephShareAnn = Some share →
     verdictOf r = Owned)
  ∧ (∀ owner,
       v1.Annotations (v1.Meta volume) !! provisionerIDAnn = Some owner →
       owner ≠ identity p →
       verdictOf r = NotMine ∧ w' = w ∧ spawned w' = spawned w
       ∧ ∃ e, r = returns (Some e) ∧ ignorable e = true)
  ∧ (v1.Annotations (v1.Meta volume) !! provisionerIDAnn = None →
     v1.Annotations (v1.Meta volume) !! cephShareAnn = None →
     verdictOf r = NotFound ∧ w' = w
     ∧ ∃ e, r = returns (Some e) ∧ ignorable e = false).
Proof.
  delete_cases p volume w.
  all: intros [= <- <-]; repeat split; intros; simplify_eq; try done.
  all: try by eexists.
  by destruct (Hshape e eq_refl) as (_ & _ & _ & _ & ? & ? & ->).
Qed.

(** C9. [Delete] spawns a subprocess only for a volume that carries the
    identity annotation with the identity of the instance and the share
    annotation, and what it spawns is the destroy command for that share.
    The identity is looked at first: a volume with a foreign identity gets
    the ignorable error, and no subprocess, also when it has no share
    annotation. *)
Theorem destroy_only_when_owned p volume w r w' :
  Delete ToLower agent p volume w = (r, w') →
  (spawned w' ≠ spawned w →
   v1.Annotations (v1.Meta volume) !! provisionerIDAnn = Some (identity p)
   ∧ ∃ share destroyed,
       v1.Annotations (v1.Meta volume) !! cephShareAnn = Some share
       ∧ spawned w' = spawned w ++ [destroyed]
       ∧ CmdPath destroyed = provisionCmd
       ∧ take 3 (Args destroyed) = ["-r"; "-n"; share])
  ∧ (∀ owner,
       v1.Annotations (v1.Meta volume) !! provisionerIDAnn = Some owner →
       owner ≠ identity p →
       v1.Annotations (v1.Meta volume) !! cephShareAnn = None →
       r = returns
             (Some (IgnoredError
                      "identity annotation on PV does not match ours"))
       ∧ w' = w).
Proof.
  delete_cases p volume w.
  all: intros [= <- <-]; split; [intros Hspawn|intros owner ? ? ?];
    simplify_eq; try done.
  all: split; [done|]; by eexists _, _.
Qed.

(** What [Provision] does with a reported path that has no ["/"], in
    general: it never returns a volume; unless creating the secret fails,
    it panics on the slice, with the secret already in the store. *)
Lemma path_without_slash_never_published p options w r w' cmd decoded :
  Provision ToLower Unmarshal uuidSource agent p options w = (r, w') →
  spawned w' = spawned w ++ [cmd] →
  (agent cmd).2 = None →
  Unmarshal (agent cmd).1 (Some emptyOutput) = Some decoded →
  ¬ hasEmptyField decoded →
  free_of "/" (Path decoded) →
  (r = returns (None, Some (fmt_Errorf "failed to create secret" []))
   ∧ secrets w' = secrets w)
  ∨ (r = panics slice_out_of_range
     ∧ ∃ key secret, secrets w !! key = None
                     ∧ secrets w' = <[key := secret]> (secrets w)).
Proof.
  provision_cases p options w.
  all: intros [= <- <-]; cbn; intros Hspawn Hexit Hres Hfields Hfree'.
  all: try by destruct (spawned_unchanged _ _ Hspawn).
  all: apply app_inj_tail in Hspawn as [_ <-]; rewrite Hagent in Hexit, Hres;
    cbn in Hexit, Hres; simplify_eq.
  all: try by (exfalso; apply Hfields; unfold hasEmptyField; tauto).
  all: try by left.
  - right. split; [done|]. by eexists _, _.
  - exfalso. rewrite Hsplit in Hfree'. apply Hfree'. clear.
    induction pre as [|c pre IH]; simpl; [apply list_elem_of_here|].
    by apply list_elem_of_further.
  - by destruct (parseParameters_client _ _ _ _ _ _ Hparse).
Qed.

(** What [Delete] does with a volume of the instance that has no CephFS
    source, in general: once the class and its parameters are resolved, it
    panics on the nil pointer. *)
Lemma missing_source_always_panics p volume w share class c a s m :
  v1.Annotations (v1.Meta volume) !! provisionerIDAnn = Some (identity p) →
  v1.Annotations (v1.Meta volume) !! cephShareAnn = Some share →
  getClassForVolume p volume w = (returns (Some class, None), w) →
  parseParameters ToLower p (storage.Parameters class) w
  = (returns (c, a, s, m, None), w) →
  v1.CephFS (v1.Source (v1.Spec volume)) = None →
  Delete ToLower agent p volume w = (panics nil_dereference, w).
Proof.
  intros Hid Hshare Hclass Hparse Hsource. unfold Delete.
  rewrite Hid, String.eqb_refl, Hshare. cbn [negb].
  rewrite (bind_returns _ _ _ _ _ Hclass).
  rewrite (bind_returns _ _ _ _ _ Hparse).
  by rewrite Hsource.
Qed.

(** *** [Provision], way out by way out *)

(** X6. [Provision] gives up before it does anything when the claim has a
    selector, which it looks at first, or when the parameters do not
    resolve: it hands back that error and leaves the world as it was (no
    identifier drawn, no subprocess, no secret). *)
Theorem provision_rejects_early p options w :
  (∀ selector,
     v1.Selector (v1.ClaimSpec (controller.PVC options)) = Some selector →
     Provision ToLower Unmarshal uuidSource agent p options w
     = (returns (None, Some (fmt_Errorf "claim Selector is not supported" [])),
        w))
  ∧ (∀ values failure,
       v1.Selector (v1.ClaimSpec (controller.PVC options)) = None →
       parseParameters ToLower p (controller.Parameters options) w
       = (returns (values, Some failure), w) →
       Provision ToLower Unmarshal uuidSource agent p options w
       = (returns (None, Some failure), w)).
Proof.
  split.
  - intros selector Hsel. unfold Provision. by rewrite Hsel.
  - intros [[[c a] s] m] failure Hsel Hp. unfold Provision.
    by rewrite Hsel, (bind_returns _ _ _ _ _ Hp).
Qed.

(** A call that reaches the allocation step runs the create command. *)
Lemma Provision_allocates p options w c a s m :
  v1.Selector (v1.ClaimSpec (controller.PVC options)) = None →
  parseParameters ToLower p (controller.Parameters options) w
  = (returns (c, a, s, m, None), w) →
  ∃ r w',
    Provision ToLower Unmarshal uuidSource agent p options w = (r, w')
    ∧ spawned w'
      = spawned w
        ++ [createCommand c a s m (shareFor uuidSource w)
              (userFor uuidSource w)].
Proof.
  intros Hsel Hp.
  provision_cases p options w.
  all: try done.
  all: rewrite Hp in Hparse; try done.
  all: injection Hparse as <- <- <- <-.
  all: by eexists _, _.
Qed.

Lemma Join_cons (x y : string) (rest : list string) (sep : string) :
  strings.Join (x :: y :: rest) sep
  = x +:+ sep +:+ strings.Join (y :: rest) sep.
Proof. done. Qed.

Lemma Join_Split (v : string) : strings.Join (strings.Split v ",") "," = v.
Proof.
  induction v as [|c v IH]; [done|]. cbn [strings.Split].
  pose proof (Split_length v ",") as Hlen.
  destruct (strings.Split v ",") as [|piece pieces]; [simpl in Hlen; lia|].
  destruct (Ascii.eqb_spec c ",") as [->|Hc].
  - by rewrite Join_cons, IH.
  - destruct pieces as [|piece' pieces].
    + cbn in *. by rewrite IH.
    + rewrite Join_cons in *. by rewrite <- IH.
Qed.

(** X7. The agent is given the monitors as the bundle spells them: with
    keys that differ after lower-casing, the environment of the create
    command is the cluster, the value under [monitors] unchanged (split on
    commas and joined again), the admin id and the admin key. *)
Theorem monitors_reach_agent_verbatim p options w c a s m k v :
  v1.Selector (v1.ClaimSpec (controller.PVC options)) = None →
  parseParameters ToLower p (controller.Parameters options) w
  = (returns (c, a, s, m, None), w) →
  NoDup (loweredKeys ToLower (controller.Parameters options)) →
  (k, v) ∈ controller.Parameters options → ToLower k = "monitors" →
  ∃ r w' cmd,
    Provision ToLower Unmarshal uuidSource agent p options w = (r, w')
    ∧ spawned w' = spawned w ++ [cmd]
    ∧ Env cmd = ["CEPH_CLUSTER_NAME=" +:+ c; "CEPH_MON=" +:+ v;
                 "CEPH_AUTH_ID=" +:+ a; "CEPH_AUTH_KEY=" +:+ s].
Proof.
  intros Hsel Hp Hnodup Hin Hk.
  destruct (Provision_allocates p options w c a s m Hsel Hp)
    as (r & w' & Hrun & Hspawn).
  exists r; exists w'; eexists. split; [done|]. split; [done|].
  cbn. unfold cephEnv.
  rewrite (parseParameters_monitors ToLower p _ w c a s m w k v
             Hnodup Hp Hin Hk).
  by rewrite Join_Split.
Qed.

(** X8. The volume a successful [Provision] returns: it has the name asked
    for and exactly two annotations, the identity of the instance and the
    share name made up for the call; its CephFS source has the resolved
    monitors, the user made up for the call (not the one the agent
    reports) and a reference to the secret named after that user; policy
    and capacity are copied from the request, the capacity being zero when
    the claim asks for no storage. *)
Theorem provisioned_descriptor p options w pv w' :
  Provision ToLower Unmarshal uuidSource agent p options w
  = (returns (Some pv, None), w') →
  v1.Name (v1.Meta pv) = controller.PVName options
  ∧ v1.Annotations (v1.Meta pv)
    = <[cephShareAnn := shareFor uuidSource w]>
        (<[provisionerIDAnn := identity p]> ∅)
  ∧ v1.PersistentVolumeReclaimPolicy (v1.Spec pv)
    = controller.PersistentVolumeReclaimPolicy options
  ∧ v1.AccessModes (v1.Spec pv)
    = [v1.ReadWriteOnce; v1.ReadOnlyMany; v1.ReadWriteMany]
  ∧ v1.Capacity (v1.Spec pv)
    = {[ v1.ResourceStorage :=
           default 0 (v1.Requests (v1.ClaimSpec (controller.PVC options))
                        !! v1.ResourceStorage) ]}
  ∧ ∃ source c a s,
      v1.CephFS (v1.Source (v1.Spec pv)) = Some source
      ∧ v1.User source = userFor uuidSource w
      ∧ v1.SecretRef source
        = Some {| v1.RefName := credentialName (userFor uuidSource w) |}
      ∧ parseParameters ToLower p (controller.Parameters options) w
        = (returns (c, a, s, v1.Monitors source, None), w).
Proof.
  provision_cases p options w.
  all: intros [= <- <-]. cbn. repeat split.
  eexists _, _, _, _. by repeat split.
Qed.

(** X9. A successful [Provision] adds one secret to the store and changes
    nothing else in it: the secret lies in the namespace of the claim, under
    the name made from the user of the call, which was free before; it is
    of type Opaque and holds the key the agent reported under ["key"]. *)
Theorem provisioned_credential p options w pv w' :
  Provision ToLower Unmarshal uuidSource agent p options w
  = (returns (Some pv, None), w') →
  let namespace := v1.Namespace (v1.ClaimMeta (controller.PVC options)) in
  let name := credentialName (userFor uuidSource w) in
  secrets w !! (namespace, name) = None
  ∧ ∃ cmd decoded,
      spawned w' = spawned w ++ [cmd]
      ∧ Unmarshal (agent cmd).1 (Some emptyOutput) = Some decoded
      ∧ secrets w'
        = <[(namespace, name) :=
              {| v1.SecretMeta :=
                   {| v1.Name := name; v1.Namespace := namespace;
                      v1.Annotations := ∅ |};
                 v1.Data := [("key", Secret decoded)];
                 v1.Type_ := "Opaque" |}]> (secrets w).
Proof.
  provision_cases p options w.
  all: intros [= <- <-]. cbn. split; [done|].
  exists created; exists res. rewrite Hagent. by repeat split.
Qed.

(** Two ways of cutting a string at its first ["/"] agree. *)
Lemma first_slash_unique (pre pre' suf suf' : string) :
  free_of "/" pre → free_of "/" pre' →
  pre +:+ String "/" suf = pre' +:+ String "/" suf' →
  suf = suf'.
Proof.
  revert pre'. induction pre as [|c pre IH]; intros [|c' pre'] Hfree Hfree'.
  - by intros [= ->].
  - intros [= <- _]. exfalso. apply Hfree'. apply list_elem_of_here.
  - intros [= -> _]. exfalso. apply Hfree. apply list_elem_of_here.
  - intros [= _ Heq]. apply (IH pre'); [| |done].
    + intros Hin. apply Hfree. by apply list_elem_of_further.
    + intros Hin. apply Hfree'. by apply list_elem_of_further.
Qed.

(** X10. [Provision] succeeds when nothing stands in its way: no selector,
    parameters that resolve, an agent that exits with status 0 and reports
    a user, a key and a path with a ["/"], and a free secret name. The
    path of the returned volume is the reported path from its first ["/"]
    on, so a prefix such as a monitor address is cut off. *)
Theorem provision_succeeds p options w c a s m out decoded prefix rest :
  v1.Selector (v1.ClaimSpec (controller.PVC options)) = None →
  parseParameters ToLower p (controller.Parameters options) w
  = (returns (c, a, s, m, None), w) →
  agent (createCommand c a s m (shareFor uuidSource w) (userFor uuidSource w))
  = (out, None) →
  Unmarshal out (Some emptyOutput) = Some decoded →
  ¬ hasEmptyField decoded →
  Path decoded = prefix +:+ String "/" rest → free_of "/" prefix →
  secrets w !! (v1.Namespace (v1.ClaimMeta (controller.PVC options)),
                credentialName (userFor uuidSource w)) = None →
  ∃ pv w',
    Provision ToLower Unmarshal uuidSource agent p options w
    = (returns (Some pv, None), w')
    ∧ v1.Path <$> v1.CephFS (v1.Source (v1.Spec pv))
      = Some (String "/" rest).
Proof.
  intros Hsel Hp Hag Hdec Hfields Hcut Hprefix Hname.
  pose proof (parseParameters_client _ _ _ _ _ _ Hp) as Hkube.
  assert (apiReachable w = true) as Hup.
  { revert Hp. unfold parseParameters, parsePVSecret, bind, SecretsGet, ret.
    destruct (rangeParameters _ _ _); [|done].
    destruct (String.eqb _ ""); [done|].
    destruct (client p); [|done]. by destruct (apiReachable w). }
  provision_cases p options w.
  all: try done.
  all: rewrite Hp in Hparse; try done; injection Hparse as <- <- <- <-.
  all: change (agent created = (out, None)) in Hag;
    rewrite Hag in Hagent; simplify_eq.
  all: try rewrite Hdec in Hdecode; simplify_eq.
  all: try by (exfalso; apply Hfields; unfold hasEmptyField; tauto).
  all: try by (exfalso; generalize (eq_trans (eq_sym Hfresh) Hname)).
  all: try congruence.
  - exfalso. rewrite Hcut in Hfree. apply Hfree. clear.
    induction prefix as [|ch prefix IH]; simpl; [apply list_elem_of_here|].
    by apply list_elem_of_further.
  - eexists _, _. split; [done|]. cbn. rewrite Hcut in Hsplit.
    by rewrite <- (first_slash_unique _ _ _ _ Hprefix Hfree Hsplit).
Qed.

(** X11. When the name of the secret is taken, [Provision] fails with the
    error "failed to create secret", which hides the error of the store,
    after the agent has run: the share stays allocated, and no secret and
    no volume come out of the call. *)
Theorem credential_name_taken p options w c a s m out decoded existing :
  v1.Selector (v1.ClaimSpec (controller.PVC options)) = None →
  parseParameters ToLower p (controller.Parameters options) w
  = (returns (c, a, s, m, None), w) →
  agent (createCommand c a s m (shareFor uuidSource w) (userFor uuidSource w))
  = (out, None) →
  Unmarshal out (Some emptyOutput) = Some decoded →
  ¬ hasEmptyField decoded →
  secrets w !! (v1.Namespace (v1.ClaimMeta (controller.PVC options)),
                credentialName (userFor uuidSource w)) = Some existing →
  ∃ w',
    Provision ToLower Unmarshal uuidSource agent p options w
    = (returns (None, Some (fmt_Errorf "failed to create secret" [])), w')
    ∧ spawned w'
      = spawned w
        ++ [createCommand c a s m (shareFor uuidSource w)
              (userFor uuidSource w)]
    ∧ secrets w' = secrets w.
Proof.
  intros Hsel Hp Hag Hdec Hfields Hname.
  pose proof (parseParameters_client _ _ _ _ _ _ Hp) as Hkube.
  provision_cases p options w.
  all: try done.
  all: rewrite Hp in Hparse; try done; injection Hparse as <- <- <- <-.
  all: change (agent created = (out, None)) in Hag;
    rewrite Hag in Hagent; simplify_eq.
  all: try rewrite Hdec in Hdecode; simplify_eq.
  all: try by (exfalso; apply Hfields; unfold hasEmptyField; tauto).
  all: try by (exfalso; generalize (eq_trans (eq_sym Hfresh) Hname)).
  all: try congruence.
  all: by eexists.
Qed.

(** X12. When the agent fails, [Provision] hands back the error of the
    run as it is; the output is not decoded, and no secret is created. *)
Theorem agent_failure_relayed p options w c a s m out failure :
  v1.Selector (v1.ClaimSpec (controller.PVC options)) = None →
  parseParameters ToLower p (controller.Parameters options) w
  = (returns (c, a, s, m, None), w) →
  agent (createCommand c a s m (shareFor uuidSource w) (userFor uuidSource w))
  = (out, Some failure) →
  ∃ w',
    Provision ToLower Unmarshal uuidSource agent p options w
    = (returns (None, Some (ExitError failure)), w')
    ∧ secrets w' = secrets w.
Proof.
  intros Hsel Hp Hag.
  provision_cases p options w.
  all: try done.
  all: rewrite Hp in Hparse; try done; injection Hparse as <- <- <- <-.
  all: change (agent created = (out, Some failure)) in Hag;
    rewrite Hag in Hagent; simplify_eq.
  by eexists.
Qed.

(** X13. When the decoder leaves the pointer [res] nil, as it does for the
    JSON text [null], [Provision] panics on [res.User], after the agent has
    run and before any secret is created. *)
Theorem nil_decode_panics p options w c a s m out :
  v1.Selector (v1.ClaimSpec (controller.PVC options)) = None →
  parseParameters ToLower p (controller.Parameters options) w
  = (returns (c, a, s, m, None), w) →
  agent (createCommand c a s m (shareFor uuidSource w) (userFor uuidSource w))
  = (out, None) →
  Unmarshal out (Some emptyOutput) = None →
  ∃ w',
    Provision ToLower Unmarshal uuidSource agent p options w
    = (panics nil_dereference, w')
    ∧ spawned w'
      = spawned w
        ++ [createCommand c a s m (shareFor uuidSource w)
              (userFor uuidSource w)]
    ∧ secrets w' = secrets w.
Proof.
  intros Hsel Hp Hag Hdec.
  provision_cases p options w.
  all: try done.
  all: rewrite Hp in Hparse; try done; injection Hparse as <- <- <- <-.
  all: change (agent created = (out, None)) in Hag;
    rewrite Hag in Hagent; simplify_eq.
  all: try rewrite Hdec in Hdecode; simplify_eq.
  by eexists.
Qed.

(** *** [Delete], and how it composes with [Provision] *)

(** X14. [Delete] changes nothing in the store: the secrets (among them
    the one [Provision] created for the volume), the classes and the
    identifier source are as before, and at most one subprocess is
    spawned. *)
Theorem delete_keeps_store p volume w r w' :
  Delete ToLower agent p volume w = (r, w') →
  secrets w' = secrets w ∧ classes w' = classes w
  ∧ uuidsDrawn w' = uuidsDrawn w ∧ apiReachable w' = apiReachable w
  ∧ (w' = w ∨ ∃ cmd, spawned w' = spawned w ++ [cmd]).
Proof.
  delete_cases p volume w.
  all: intros [= <- <-]; do 4 (split; [done|]); try by left.
  all: right; by eexists.
Qed.

(** X15. When [Delete] spawns a subprocess, it is the destroy command for
    the share in the annotation and the user in the CephFS source, in the
    environment resolved from the parameters of the volume's class; what
    [Delete] hands back is the error of that run as it is, or nil when the
    agent exits with status 0, whatever the agent prints. *)
Theorem delete_relays_agent p volume w r w' cmd :
  Delete ToLower agent p volume w = (r, w') →
  spawned w' = spawned w ++ [cmd] →
  ∃ shareName lookedUp c a s m source,
    v1.Annotations (v1.Meta volume) !! cephShareAnn = Some shareName
    ∧ getClassForVolume p volume w = (returns (Some lookedUp, None), w)
    ∧ parseParameters ToLower p (storage.Parameters lookedUp) w
      = (returns (c, a, s, m, None), w)
    ∧ v1.CephFS (v1.Source (v1.Spec volume)) = Some source
    ∧ cmd = destroyCommand c a s m shareName (v1.User source)
    ∧ r = returns (ExitError <$> (agent cmd).2).
Proof.
  delete_cases p volume w.
  all: intros [= <- <-]; cbn; intros Hspawn.
  all: try by destruct (spawned_unchanged _ _ Hspawn).
  all: apply app_inj_tail in Hspawn as [_ <-].
  all: exists share; exists class; eexists _, _, _, _, cephFS.
  all: unfold getClassForVolume, bind, StorageClassesGet, ret.
  all: rewrite Hclass, Hclient, Hreach, Hfound, Hagent.
  all: by repeat split.
Qed.

(** X16. [Delete] calls the API through the client without the check for
    nil that [parsePVSecret] makes: on a volume of the instance that names
    a class, a provisioner without a client panics. *)
Theorem delete_without_client_panics p volume w shareName className :
  client p = None →
  v1.Annotations (v1.Meta volume) !! provisionerIDAnn = Some (identity p) →
  v1.Annotations (v1.Meta volume) !! cephShareAnn = Some shareName →
  v1.Annotations (v1.Meta volume)
    !! "volume.beta.kubernetes.io/storage-class" = Some className →
  Delete ToLower agent p volume w = (panics nil_dereference, w).
Proof.
  intros Hnil Hid Hshare Hclass. unfold Delete.
  rewrite Hid, String.eqb_refl, Hshare. cbn [negb].
  unfold bind, getClassForVolume, StorageClassesGet.
  by rewrite Hclass, Hnil.
Qed.

Lemma provisioned_annotations p options w pv w' :
  Provision ToLower Unmarshal uuidSource agent p options w
  = (returns (Some pv, None), w') →
  v1.Annotations (v1.Meta pv) !! provisionerIDAnn = Some (identity p)
  ∧ v1.Annotations (v1.Meta pv) !! cephShareAnn
    = Some (shareFor uuidSource w)
  ∧ v1.Annotations (v1.Meta pv)
      !! "volume.beta.kubernetes.io/storage-class" = None.
Proof.
  provision_cases p options w.
  all: intros [= <- <-]. cbn. unfold shareFor.
  rewrite lookup_insert_ne, lookup_insert_eq by done.
  rewrite lookup_insert_eq.
  by rewrite !lookup_insert_ne, lookup_empty by done.
Qed.

(** X17. The volume as [Provision] returns it names no storage class:
    [Delete] of the same instance on it gets past the ownership check and
    then fails with "Volume has no class annotation", in any world and
    without a subprocess. The annotation has to be added by the caller. *)
Theorem delete_needs_class_annotation p options w pv w' world :
  Provision ToLower Unmarshal uuidSource agent p options w
  = (returns (Some pv, None), w') →
  Delete ToLower agent p pv world
  = (returns (Some (fmt_Errorf "Volume has no class annotation" [])), world).
Proof.
  intros Hrun.
  destruct (provisioned_annotations _ _ _ _ _ Hrun) as (Hid & Hshare & Hclass).
  unfold Delete. rewrite Hid, String.eqb_refl, Hshare. cbn [negb].
  unfold bind, getClassForVolume. by rewrite Hclass.
Qed.

(** What a successful [Provision] leaves behind, for the proofs about
    [Delete] after it. *)
Lemma provisioned_facts p options w pv w' :
  Provision ToLower Unmarshal uuidSource agent p options w
  = (returns (Some pv, None), w') →
  ∃ source c a s,
    v1.CephFS (v1.Source (v1.Spec pv)) = Some source
    ∧ v1.User source = userFor uuidSource w
    ∧ parseParameters ToLower p (controller.Parameters options) w
      = (returns (c, a, s, v1.Monitors source, None), w)
    ∧ spawned w'
      = spawned w
        ++ [createCommand c a s (v1.Monitors source) (shareFor uuidSource w)
              (userFor uuidSource w)]
    ∧ apiReachable w' = apiReachable w
    ∧ (∀ key secret, secrets w !! key = Some secret →
                     secrets w' !! key = Some secret).
Proof.
  provision_cases p options w.
  all: intros [= <- <-]. cbn.
  eexists _, _, _, _. repeat split; try done.
  intros key secret Hkey. rewrite lookup_insert_ne; [done|].
  intros Heq. rewrite <- Heq in Hkey.
  by generalize (eq_trans (eq_sym Hfresh) Hkey).
Qed.

(** X18. [Delete] undoes what [Provision] did. Take the volume a
    successful [Provision] returned, with the annotation that names its
    class; the world [Provision] left, as a later call finds it; and a
    class whose parameters are those of the request, visited in any order.
    When no two keys of the request agree after lower-casing and the admin
    secret has one entry, [Delete] of the same instance runs the agent on
    the share and the user of the create command, with [-r] and in the
    same environment, and hands back how that run ended. *)
Theorem delete_reverses_provision p options w pv w1 later className lookedUp :
  Provision ToLower Unmarshal uuidSource agent p options w
  = (returns (Some pv, None), w1) →
  revisited w1 later →
  classes later !! className = Some lookedUp →
  storage.Parameters lookedUp ≡ₚ controller.Parameters options →
  NoDup (loweredKeys ToLower (controller.Parameters options)) →
  (∀ namespace name secret,
     settingIs ToLower (controller.Parameters options)
       AdminSecretNamespace "default" namespace →
     settingIs ToLower (controller.Parameters options)
       AdminSecretName "" name →
     secrets w !! (namespace, name) = Some secret →
     length (v1.Data secret) = 1%nat) →
  ∃ r w2 made undone,
    Delete ToLower agent p (withClass className pv) later = (r, w2)
    ∧ spawned w2 = spawned w ++ [made; undone]
    ∧ CmdPath made = provisionCmd ∧ CmdPath undone = provisionCmd
    ∧ Args made = ["-n"; shareFor uuidSource w; "-u"; userFor uuidSource w]
    ∧ Args undone
      = ["-r"; "-n"; shareFor uuidSource w; "-u"; userFor uuidSource w]
    ∧ Env undone = Env made
    ∧ r = returns (ExitError <$> (agent undone).2).
Proof.
  intros Hrun (Hup' & Hspawn' & Hkeep') Hclass Hsame Hnodup Hone.
  destruct (provisioned_annotations _ _ _ _ _ Hrun) as (Hid & Hshare & _).
  destruct (provisioned_facts _ _ _ _ _ Hrun)
    as (source & c & a & s & Hsource & Huser & Hp & Hspawn0 & Hup & Hkeep).
  assert (parseParameters ToLower p (storage.Parameters lookedUp) later
          = (returns (c, a, s, v1.Monitors source, None), later)) as Hp1.
  { apply (parseParameters_revisited ToLower p
             (controller.Parameters options) _ w); try done.
    - congruence.
    - intros key secret Hkey. apply Hkeep', Hkeep, Hkey. }
  unfold Delete. cbn [withClass v1.Meta v1.Annotations v1.Spec].
  rewrite !lookup_insert_ne by done.
  rewrite Hid, String.eqb_refl, Hshare. cbn [negb].
  unfold bind at 1, getClassForVolume.
  cbn [withClass v1.Meta v1.Annotations v1.Spec].
  rewrite lookup_insert_eq.
  assert (client p ≠ None) as Hkube
    by apply (parseParameters_client _ _ _ _ _ _ Hp).
  assert (apiReachable later = true) as Hup1.
  { revert Hp1. unfold parseParameters, parsePVSecret, bind, SecretsGet, ret.
    destruct (rangeParameters _ _ _); [|done].
    destruct (String.eqb _ ""); [done|].
    destruct (client p); [|done]. by destruct (apiReachable later). }
  unfold bind at 1, StorageClassesGet.
  destruct (client p) as [kube|]; [|done].
  rewrite Hup1, Hclass. cbn [ret].
  rewrite (bind_returns _ _ _ _ _ Hp1), Hsource.
  unfold bind, CombinedOutput, ret. cbn [with_spawned spawned].
  rewrite Huser, Hspawn', Hspawn0, <- app_assoc. cbn [app].
  match goal with |- context [agent ?x] => set (undo := x) end.
  destruct (agent undo) as [out [failure|]] eqn:Hundo;
    cbn [snd fmap option_fmap option_map];
    (eexists _, _, _, undo; split; [done|]);
    rewrite Hundo; by repeat split.
Qed.

(** X19. A volume provisioned by one instance is left alone by every
    instance made with another draw of an identifier source that does not
    repeat itself: [Delete] of that instance on the volume, with or without
    its class annotation, hands back the ignorable error and does
    nothing. *)
Theorem other_instance_ignores kube kube' p p' w0 w0' w1 w1' options w pv w'
    className world :
  (∀ i j, uuidSource i = uuidSource j → i = j) →
  newCephFSProvisioner uuidSource kube w0 = (returns p, w0') →
  newCephFSProvisioner uuidSource kube' w1 = (returns p', w1') →
  uuidsDrawn w0 ≠ uuidsDrawn w1 →
  Provision ToLower Unmarshal uuidSource agent p options w
  = (returns (Some pv, None), w') →
  identity p ≠ identity p'
  ∧ Delete ToLower agent p' (withClass className pv) world
    = (returns
         (Some (IgnoredError "identity annotation on PV does not match ours")),
       world)
  ∧ Delete ToLower agent p' pv world
    = (returns
         (Some (IgnoredError "identity annotation on PV does not match ours")),
       world).
Proof.
  intros Hinj [= <- _] [= <- _] Hdraw Hrun.
  destruct (provisioned_annotations _ _ _ _ _ Hrun) as (Hid & _ & _).
  assert (uuidSource (uuidsDrawn w0) ≠ uuidSource (uuidsDrawn w1)) as Hne
    by (intros Heq; by apply Hdraw, Hinj).
  split; [done|].
  unfold Delete. cbn [withClass v1.Meta v1.Annotations identity].
  rewrite lookup_insert_ne by done. cbn in Hid. rewrite Hid.
  by destruct (String.eqb_spec (uuidSource (uuidsDrawn w0))
                 (uuidSource (uuidsDrawn w1))).
Qed.

(** X21. What a [Provision] call can leave behind: it never touches the
    classes, and never removes or replaces a secret; either the world is as
    before, or two identifiers are drawn and one subprocess is spawned, and
    then at most one secret is added, under a name that was free. *)
Theorem provision_footprint p options w r w' :
  Provision ToLower Unmarshal uuidSource agent p options w = (r, w') →
  classes w' = classes w ∧ apiReachable w' = apiReachable w
  ∧ (w' = w
     ∨ (uuidsDrawn w' = S (S (uuidsDrawn w))
        ∧ (∃ cmd, spawned w' = spawned w ++ [cmd])
        ∧ (secrets w' = secrets w
           ∨ ∃ key secret, secrets w !! key = None
                           ∧ secrets w' = <[key := secret]> (secrets w)))).
Proof.
  provision_cases p options w.
  all: intros [= <- <-]; do 2 (split; [done|]); try by left.
  all: right; split; [done|]; split; [by eexists|].
  all: try by left.
  all: right; by eexists _, _.
Qed.

(** X22. [Provision] hands back a volume or an error, never both and
    never neither. *)
Theorem provision_result_shape p options w pv failure w' :
  Provision ToLower Unmarshal uuidSource agent p options w
  = (returns (pv, failure), w') →
  (is_Some pv ∧ failure = None) ∨ (pv = None ∧ is_Some failure).
Proof.
  provision_cases p options w.
  all: intros [= <- <- <-]; (by left) || (by right).
Qed.

End Lifecycle.

(** * The program run in the concrete setting *)

Section InScenario.

Import Scenario.

Lemma run_pairing {A} (run : outcome A * World) : run = (run.1, run.2).
Proof. by destruct run. Qed.

(** C1, as stated, fails: the value [","] yields no non-empty entry, and
    yet resolution succeeds, with two empty monitor endpoints. *)
Lemma comma_monitors_resolve :
  nonEmptyEntries "," = []
  ∧ parseParameters lowerASCII provisioner
      [("monitors", ","); ("adminSecretName", "ceph-admin")] world
    = (returns ("ceph", "admin", "AQDadminkey==", [""; ""], None), world).
Proof. split; vm_compute; reflexivity. Qed.

Lemma missing_monitors_fails_witness :
  (∃ e, parseParameters lowerASCII provisioner
          [("adminSecretName", "ceph-admin")] world
        = (returns ("", "", "", [], Some e), world))
  ∧ (1 ≤ length ["10.0.0.1:6789"; "10.0.0.2:6789"])%nat.
Proof.
  split.
  - apply (proj1 (missing_monitors_fails lowerASCII provisioner
                    [("adminSecretName", "ceph-admin")] world)).
    intros k v Hin. apply list_elem_of_singleton in Hin.
    injection Hin as -> ->. vm_compute. discriminate.
  - apply (proj2 (missing_monitors_fails lowerASCII provisioner
                    parameters world)
             "ceph" "admin" "AQDadminkey==" _ world).
    vm_compute. reflexivity.
Defined.

Lemma unrecognized_key_fails_closed_witness :
  ∃ k', (∃ v', (k', v') ∈ parameters ++ [("Pool", "data")])
        ∧ (lowerASCII k' ∉ recognizedKeys)
        ∧ parseParameters lowerASCII provisioner
            (parameters ++ [("Pool", "data")]) world
          = (returns ("", "", "", [],
                      Some (fmt_Errorf "invalid option %q" [op_string k'])),
             world).
Proof.
  apply (unrecognized_key_fails_closed lowerASCII provisioner
           (parameters ++ [("Pool", "data")]) world "Pool" "data").
  - apply (bool_decide_unpack _). vm_compute. exact I.
  - apply (bool_decide_unpack _). vm_compute. exact I.
Defined.

Lemma parsePVSecret_any_entry_witness :
  ∃ k v, (k, v) ∈ v1.Data adminSecret
         ∧ parsePVSecret provisioner "default" "ceph-admin" world
           = (returns (v, None), world).
Proof.
  apply (proj1 (parsePVSecret_any_entry provisioner "default" "ceph-admin"
                  world) adminSecret).
  - discriminate.
  - reflexivity.
  - vm_compute. reflexivity.
  - discriminate.
Defined.

(** The agent exits with status 1 on [create]. *)
Lemma failed_allocation_publishes_nothing_witness :
  (∃ e, (provision failing).1 = returns (None, Some e))
  ∧ secrets (provision failing).2 = secrets world.
Proof.
  apply (failed_allocation_publishes_nothing lowerASCII decoder uuids
           failing provisioner (options parameters) world
           (provision failing).1 (provision failing).2 created).
  - apply run_pairing.
  - vm_compute. reflexivity.
  - left. vm_compute. discriminate.
Defined.

Lemma export_path_from_first_slash_witness :
  ∃ c res source pre,
    spawned (provision (reporting "/volumes/vol1")).2 = spawned world ++ [c]
    ∧ decoder (reporting "/volumes/vol1" c).1 (Some emptyOutput) = Some res
    ∧ v1.CephFS (v1.Source (v1.Spec published)) = Some source
    ∧ Path res = pre +:+ v1.Path source
    ∧ free_of "/" pre
    ∧ strings.HasPrefix (v1.Path source) "/" = true
    ∧ (Path res = "/volumes/vol1" → v1.Path source = "/volumes/vol1").
Proof.
  apply (export_path_from_first_slash lowerASCII decoder uuids
           (reporting "/volumes/vol1") provisioner (options parameters)
           world published (provision (reporting "/volumes/vol1")).2).
  vm_compute. reflexivity.
Defined.

(** C8, as stated, fails: the share and the user that the agent is run on
    begin with ["kubernetes-dynamic-"], not with ["dyn-"]. *)
Lemma generated_names_not_as_specified :
  ∃ c, spawned (provision (reporting "/volumes/vol1")).2 = [c]
       ∧ ¬ namedAsSpecified c.
Proof.
  exists created. split; [vm_compute; reflexivity|].
  intros (random1 & random2 & Hargs). vm_compute in Hargs.
  discriminate.
Qed.

Lemma generated_names_witness :
  ∃ r w',
    Provision lowerASCII decoder uuids (reporting "/volumes/vol1")
      provisioner (options parameters) world = (r, w')
    ∧ spawned w'
      = spawned world
        ++ [setEnv
              (Command provisionCmd
                 ["-n";
                  "kubernetes-dynamic-pvc-" +:+ uuids (uuidsDrawn world);
                  "-u";
                  "kubernetes-dynamic-user-"
                    +:+ uuids (S (uuidsDrawn world))])
              (cephEnv "ceph" "admin" "AQDadminkey=="
                 ["10.0.0.1:6789"; "10.0.0.2:6789"])]
    ∧ uuidsDrawn w' = S (S (uuidsDrawn world)).
Proof.
  apply (generated_names lowerASCII decoder uuids
           (reporting "/volumes/vol1") provisioner (options parameters)
           world).
  - reflexivity.
  - vm_compute. reflexivity.
Defined.

(** One volume of the instance, one of another instance, one that is not
    stamped. *)
Lemma ownership_verdict_witness :
  verdictOf (delete (volume "identity-A" (Some shareName)
                       (Some cephFSSource))).1 = Owned
  ∧ verdictOf (delete (volume "identity-B" (Some shareName)
                         (Some cephFSSource))).1 = NotMine
  ∧ verdictOf (delete bareVolume).1 = NotFound.
Proof.
  split; [|split].
  - apply (proj1 (ownership_verdict lowerASCII silent provisioner
                    (volume "identity-A" (Some shareName)
                       (Some cephFSSource))
                    world _ _ (run_pairing _)) shareName);
      vm_compute; reflexivity.
  - apply (proj1 (proj2 (ownership_verdict lowerASCII silent provisioner
                           (volume "identity-B" (Some shareName)
                              (Some cephFSSource))
                           world _ _ (run_pairing _))) "identity-B").
    + vm_compute. reflexivity.
    + discriminate.
  - apply (proj2 (proj2 (ownership_verdict lowerASCII silent provisioner
                           bareVolume world _ _ (run_pairing _))));
      vm_compute; reflexivity.
Defined.

Lemma destroy_only_when_owned_witness :
  (∃ share c,
     v1.Annotations
       (v1.Meta (volume "identity-A" (Some shareName) (Some cephFSSource)))
       !! cephShareAnn = Some share
     ∧ spawned (delete (volume "identity-A" (Some shareName)
                          (Some cephFSSource))).2
       = spawned world ++ [c]
     ∧ CmdPath c = provisionCmd
     ∧ take 3 (Args c) = ["-r"; "-n"; share])
  ∧ delete (volume "identity-B" None (Some cephFSSource))
    = (returns
         (Some (IgnoredError
                  "identity annotation on PV does not match ours")),
       world).
Proof.
  split.
  - apply (proj1 (destroy_only_when_owned lowerASCII silent provisioner
                    (volume "identity-A" (Some shareName)
                       (Some cephFSSource))
                    world _ _ (run_pairing _))).
    vm_compute. discriminate.
  - destruct (proj2 (destroy_only_when_owned lowerASCII silent provisioner
                       (volume "identity-B" None (Some cephFSSource))
                       world _ _ (run_pairing _)) "identity-B")
      as [Hr Hw]; [vm_compute; reflexivity|discriminate
                  |vm_compute; reflexivity|].
    rewrite (run_pairing (delete _)). unfold delete. by rewrite Hr, Hw.
Defined.

(** C2. The claim is right and the program is not: when the agent exits
    with status 0 and prints [null], output that yields no [path], [user]
    or [auth], the decoder sets [res] to nil and [Provision], which drops
    the decoder's error, panics on [res.User] instead of handing back an
    error. The agent has run by then; no secret is created. *)
Theorem null_output_panics :
  decoderWide (scripted "null" None created).1 (Some emptyOutput) = None
  ∧ (Provision lowerASCII decoderWide uuids (scripted "null" None)
       provisioner (options parameters) world).1
    = panics nil_dereference
  ∧ spawned
      (Provision lowerASCII decoderWide uuids (scripted "null" None)
         provisioner (options parameters) world).2
    = [created]
  ∧ secrets
      (Provision lowerASCII decoderWide uuids (scripted "null" None)
         provisioner (options parameters) world).2
    = secrets world.
Proof. repeat split; vm_compute; reflexivity. Qed.

(** C6. The claim is right and the program is not: when the agent
    reports a path without ["/"], next to a user and a key, [Provision]
    creates the secret and then panics on the slice
    [res.Path[strings.Index(res.Path, "/"):]], whose lower bound is
    [-1]. *)
Theorem path_without_slash_panics :
  decoder (reporting "vol1" created).1 (Some emptyOutput)
  = Some {| Path := "vol1"; User := "u1"; Secret := "AQA==" |}
  ∧ strings.Index "vol1" "/" = -1
  ∧ (provision (reporting "vol1")).1 = panics slice_out_of_range
  ∧ v1.Data
      <$> secrets (provision (reporting "vol1")).2
            !! ("apps", "ceph-" +:+ userName +:+ "-secret")
    = Some [("key", "AQA==")].
Proof. repeat split; vm_compute; reflexivity. Qed.

(** C10. The claim is right and the program is not: on a volume that
    passes ownership verification, whose class parameters resolve, and
    that has no CephFS source, [Delete] panics when it reads
    [volume.Spec.PersistentVolumeSource.CephFS.User] through the nil
    pointer; nothing has been spawned. *)
Theorem missing_source_panics :
  v1.Annotations (v1.Meta (volume "identity-A" (Some shareName) None))
    !! provisionerIDAnn = Some (identity provisioner)
  ∧ v1.Annotations (v1.Meta (volume "identity-A" (Some shareName) None))
      !! cephShareAnn = Some shareName
  ∧ parseParameters lowerASCII provisioner (storage.Parameters class) world
    = (returns ("ceph", "admin", "AQDadminkey==",
                ["10.0.0.1:6789"; "10.0.0.2:6789"], None), world)
  ∧ delete (volume "identity-A" (Some shareName) None)
    = (panics nil_dereference, world).
Proof. repeat split; vm_compute; reflexivity. Qed.

(** *** Instances of the further properties *)

Ltac each_entry H :=
  repeat (apply elem_of_cons in H as [[= -> ->]|H]);
  [..|by apply elem_of_nil in H].

Ltac decided := apply (bool_decide_unpack _); vm_compute; exact I.

Lemma resolution_order_independent_witness :
  parseParameters lowerASCII provisioner parameters world
  = parseParameters lowerASCII provisioner parametersReversed world.
Proof.
  apply resolution_order_independent.
  - apply perm_swap.
  - decided.
  - intros k v Hin. each_entry Hin; decided.
Defined.

Lemma resolved_settings_witness :
  (∀ v, settingIs lowerASCII parameters Cluster "ceph" v → "ceph" = v)
  ∧ (∀ v, settingIs lowerASCII parameters AdminID "admin" v → "admin" = v)
  ∧ (∀ k v, (k, v) ∈ parameters → lowerASCII k = "monitors" →
            ["10.0.0.1:6789"; "10.0.0.2:6789"] = strings.Split v ",").
Proof.
  apply (resolved_settings lowerASCII provisioner parameters world
           "ceph" "admin" "AQDadminkey==" _ world).
  - decided.
  - vm_compute. reflexivity.
Defined.

Lemma resolved_admin_secret_witness :
  ∃ secret key, secrets world !! ("default", "ceph-admin") = Some secret
                ∧ (key, "AQDadminkey==") ∈ v1.Data secret.
Proof.
  apply (resolved_admin_secret lowerASCII provisioner parameters world
           "ceph" "admin" "AQDadminkey=="
           ["10.0.0.1:6789"; "10.0.0.2:6789"] world "default" "ceph-admin").
  - decided.
  - vm_compute. reflexivity.
  - right. split; [|reflexivity].
    intros k v Hin. each_entry Hin; vm_compute; discriminate.
  - left. exists "adminSecretName". split; [|vm_compute; reflexivity].
    apply list_elem_of_further, list_elem_of_here.
Defined.

Lemma missing_secret_name_fails_witness :
  parseParameters lowerASCII provisioner nameless world
  = (returns ("", "", "", [],
              Some (fmt_Errorf "missing Ceph admin secret name" [])), world).
Proof.
  apply missing_secret_name_fails.
  - intros k v Hin. each_entry Hin; decided.
  - intros k v Hin Hk. each_entry Hin. vm_compute in Hk. discriminate.
Defined.

Lemma admin_secret_failure_reported_witness :
  parseParameters lowerASCII provisioner dangling world
  = (returns ("", "", "", [],
              Some (fmt_Errorf "failed to get admin secret from [%q/%q]: %v"
                      [op_string "default"; op_string "absent";
                       op_error (StatusError "NotFound")])),
     world).
Proof.
  apply (admin_secret_failure_reported lowerASCII provisioner dangling world
           "default" "absent" "").
  - decided.
  - intros k v Hin. each_entry Hin; decided.
  - right. split; [|reflexivity].
    intros k v Hin. each_entry Hin; vm_compute; discriminate.
  - left. exists "adminSecretName". split; [|vm_compute; reflexivity].
    apply list_elem_of_further, list_elem_of_here.
  - discriminate.
  - vm_compute. reflexivity.
Defined.

Lemma provision_rejects_early_witness :
  Provision lowerASCII decoder uuids failing provisioner selective world
  = (returns (None, Some (fmt_Errorf "claim Selector is not supported" [])),
     world)
  ∧ Provision lowerASCII decoder uuids failing provisioner (options nameless)
      world
    = (returns
         (None, Some (fmt_Errorf "missing Ceph admin secret name" [])),
       world).
Proof.
  split.
  - apply (proj1 (provision_rejects_early lowerASCII decoder uuids failing
                    provisioner selective world) {| v1.MatchLabels := ∅ |}).
    reflexivity.
  - apply (proj2 (provision_rejects_early lowerASCII decoder uuids failing
                    provisioner (options nameless) world) ("", "", "", [])).
    + reflexivity.
    + vm_compute. reflexivity.
Defined.

Lemma monitors_reach_agent_verbatim_witness :
  ∃ r w' cmd,
    Provision lowerASCII decoder uuids (reporting "/volumes/vol1")
      provisioner (options parameters) world = (r, w')
    ∧ spawned w' = spawned world ++ [cmd]
    ∧ Env cmd = ["CEPH_CLUSTER_NAME=" +:+ "ceph";
                 "CEPH_MON=" +:+ "10.0.0.1:6789,10.0.0.2:6789";
                 "CEPH_AUTH_ID=" +:+ "admin";
                 "CEPH_AUTH_KEY=" +:+ "AQDadminkey=="].
Proof.
  apply (monitors_reach_agent_verbatim lowerASCII decoder uuids
           (reporting "/volumes/vol1") provisioner (options parameters)
           world "ceph" "admin" "AQDadminkey=="
           ["10.0.0.1:6789"; "10.0.0.2:6789"] "monitors").
  - reflexivity.
  - vm_compute. reflexivity.
  - decided.
  - apply list_elem_of_here.
  - vm_compute. reflexivity.
Defined.

Lemma provisioned_descriptor_witness :
  v1.Name (v1.Meta published) = "pvc-1"
  ∧ v1.Annotations (v1.Meta published)
    = <[cephShareAnn := shareFor uuids world]>
        (<[provisionerIDAnn := identity provisioner]> ∅).
Proof.
  destruct (provisioned_descriptor lowerASCII decoder uuids
              (reporting "/volumes/vol1") provisioner (options parameters)
              world published (provision (reporting "/volumes/vol1")).2)
    as (Hname & Hannotations & _).
  - vm_compute. reflexivity.
  - split; [exact Hname|exact Hannotations].
Defined.

Lemma provisioned_credential_witness :
  secrets world !! ("apps", credentialName (userFor uuids world)) = None.
Proof.
  pose proof (provisioned_credential lowerASCII decoder uuids
                (reporting "/volumes/vol1") provisioner (options parameters)
                world published (provision (reporting "/volumes/vol1")).2)
    as Hcredential.
  cbv zeta in Hcredential.
  destruct Hcredential as [Hfree _].
  - vm_compute. reflexivity.
  - exact Hfree.
Defined.

Lemma provision_succeeds_witness :
  ∃ pv w',
    Provision lowerASCII decoderWide uuids
      (reporting "10.0.0.1:6789:/volumes/vol1") provisioner
      (options parameters) world
    = (returns (Some pv, None), w')
    ∧ v1.Path <$> v1.CephFS (v1.Source (v1.Spec pv)) = Some "/volumes/vol1".
Proof.
  apply (provision_succeeds lowerASCII decoderWide uuids
           (reporting "10.0.0.1:6789:/volumes/vol1") provisioner
           (options parameters) world "ceph" "admin" "AQDadminkey=="
           ["10.0.0.1:6789"; "10.0.0.2:6789"]
           (jsonOutput "10.0.0.1:6789:/volumes/vol1" "u1" "AQA==")
           {| Path := "10.0.0.1:6789:/volumes/vol1"; User := "u1";
              Secret := "AQA==" |}
           "10.0.0.1:6789:" "volumes/vol1").
  - reflexivity.
  - vm_compute. reflexivity.
  - reflexivity.
  - vm_compute. reflexivity.
  - intros [H|[H|H]]; discriminate.
  - reflexivity.
  - unfold free_of. decided.
  - vm_compute. reflexivity.
Defined.

Lemma credential_name_taken_witness :
  ∃ w',
    Provision lowerASCII decoder uuids (reporting "/volumes/vol1")
      provisioner (options parameters) crowded
    = (returns (None, Some (fmt_Errorf "failed to create secret" [])), w')
    ∧ spawned w'
      = spawned crowded
        ++ [createCommand "ceph" "admin" "AQDadminkey=="
              ["10.0.0.1:6789"; "10.0.0.2:6789"] (shareFor uuids crowded)
              (userFor uuids crowded)]
    ∧ secrets w' = secrets crowded.
Proof.
  apply (credential_name_taken lowerASCII decoder uuids
           (reporting "/volumes/vol1") provisioner (options parameters)
           crowded "ceph" "admin" "AQDadminkey=="
           ["10.0.0.1:6789"; "10.0.0.2:6789"]
           (jsonOutput "/volumes/vol1" "u1" "AQA==")
           {| Path := "/volumes/vol1"; User := "u1"; Secret := "AQA==" |}
           adminSecret).
  - reflexivity.
  - vm_compute. reflexivity.
  - reflexivity.
  - vm_compute. reflexivity.
  - intros [H|[H|H]]; discriminate.
  - vm_compute. reflexivity.
Defined.

Lemma agent_failure_relayed_witness :
  ∃ w',
    Provision lowerASCII decoder uuids failing provisioner
      (options parameters) world
    = (returns (None, Some (ExitError "exit status 1")), w')
    ∧ secrets w' = secrets world.
Proof.
  apply (agent_failure_relayed lowerASCII decoder uuids failing provisioner
           (options parameters) world "ceph" "admin" "AQDadminkey=="
           ["10.0.0.1:6789"; "10.0.0.2:6789"] "mount error").
  - reflexivity.
  - vm_compute. reflexivity.
  - reflexivity.
Defined.

Lemma nil_decode_panics_witness :
  ∃ w',
    Provision lowerASCII decoderWide uuids (scripted "null" None) provisioner
      (options parameters) world
    = (panics nil_dereference, w')
    ∧ spawned w'
      = spawned world
        ++ [createCommand "ceph" "admin" "AQDadminkey=="
              ["10.0.0.1:6789"; "10.0.0.2:6789"] (shareFor uuids world)
              (userFor uuids world)]
    ∧ secrets w' = secrets world.
Proof.
  apply (nil_decode_panics lowerASCII decoderWide uuids (scripted "null" None)
           provisioner (options parameters) world "ceph" "admin"
           "AQDadminkey==" ["10.0.0.1:6789"; "10.0.0.2:6789"] "null").
  - reflexivity.
  - vm_compute. reflexivity.
  - reflexivity.
  - vm_compute. reflexivity.
Defined.

Lemma delete_keeps_store_witness :
  secrets (delete (volume "identity-A" (Some shareName)
                     (Some cephFSSource))).2 = secrets world
  ∧ ∃ cmd, spawned (delete (volume "identity-A" (Some shareName)
                              (Some cephFSSource))).2
           = spawned world ++ [cmd].
Proof.
  destruct (delete_keeps_store lowerASCII silent provisioner
              (volume "identity-A" (Some shareName) (Some cephFSSource))
              world _ _ (run_pairing _))
    as (Hsecrets & _ & _ & _ & [Hsame|Hspawned]).
  - exfalso. apply (f_equal spawned) in Hsame. vm_compute in Hsame.
    discriminate.
  - split; [exact Hsecrets|exact Hspawned].
Defined.

Lemma delete_relays_agent_witness :
  (delete (volume "identity-A" (Some shareName) (Some cephFSSource))).1
  = returns (ExitError <$> (silent (destroyed shareName)).2).
Proof.
  destruct (delete_relays_agent lowerASCII silent provisioner
              (volume "identity-A" (Some shareName) (Some cephFSSource))
              world _ _ (destroyed shareName) (run_pairing _))
    as (? & ? & ? & ? & ? & ? & ? & _ & _ & _ & _ & _ & Hresult).
  - vm_compute. reflexivity.
  - exact Hresult.
Defined.

Lemma delete_without_client_panics_witness :
  Delete lowerASCII silent clientless
    (volume "identity-A" (Some shareName) (Some cephFSSource)) world
  = (panics nil_dereference, world).
Proof.
  apply (delete_without_client_panics lowerASCII silent clientless
           (volume "identity-A" (Some shareName) (Some cephFSSource))
           world shareName "cephfs").
  - reflexivity.
  - vm_compute. reflexivity.
  - vm_compute. reflexivity.
  - vm_compute. reflexivity.
Defined.

Lemma delete_needs_class_annotation_witness :
  Delete lowerASCII (reporting "/volumes/vol1") provisioner published world
  = (returns (Some (fmt_Errorf "Volume has no class annotation" [])), world).
Proof.
  apply (delete_needs_class_annotation lowerASCII decoder uuids
           (reporting "/volumes/vol1") provisioner (options parameters)
           world published (provision (reporting "/volumes/vol1")).2).
  vm_compute. reflexivity.
Defined.

(** The class lists the parameters in the other order. *)
Lemma delete_reverses_provision_witness :
  ∃ r w2 made undone,
    Delete lowerASCII (reporting "/volumes/vol1") provisioner
      (withClass "cephfs" published) reordered
    = (r, w2)
    ∧ spawned w2 = spawned world ++ [made; undone]
    ∧ CmdPath made = provisionCmd ∧ CmdPath undone = provisionCmd
    ∧ Args made = ["-n"; shareFor uuids world; "-u"; userFor uuids world]
    ∧ Args undone
      = ["-r"; "-n"; shareFor uuids world; "-u"; userFor uuids world]
    ∧ Env undone = Env made
    ∧ r = returns (ExitError <$> (reporting "/volumes/vol1" undone).2).
Proof.
  apply (delete_reverses_provision lowerASCII decoder uuids
           (reporting "/volumes/vol1") provisioner (options parameters)
           world published (provision (reporting "/volumes/vol1")).2
           reordered "cephfs" classReversed).
  - vm_compute. reflexivity.
  - split; [reflexivity|]. split; [reflexivity|].
    intros key secret Hkey. exists secret. split; [exact Hkey|reflexivity].
  - vm_compute. reflexivity.
  - apply perm_swap.
  - decided.
  - intros namespace name secret Hnamespace Hname.
    destruct Hnamespace as [(k & Hin & Hk)|[_ ->]];
      [each_entry Hin; vm_compute in Hk; discriminate|].
    destruct Hname as [(k & Hin & Hk)|[Hno _]].
    + each_entry Hin; [vm_compute in Hk; discriminate|].
      vm_compute. intros [= <-]. reflexivity.
    + exfalso. apply (Hno "adminSecretName" "ceph-admin");
        [apply list_elem_of_further, list_elem_of_here|].
      vm_compute. reflexivity.
Defined.

Lemma serial_inj (i j : nat) : serial i = serial j → i = j.
Proof.
  revert j. induction i as [|i IH]; intros [|j]; simpl; try discriminate.
  - reflexivity.
  - intros [= Heq]. by rewrite (IH j Heq).
Defined.

Lemma other_instance_ignores_witness :
  identity first ≠ identity second
  ∧ Delete lowerASCII (reporting "/volumes/vol1") second (withClass "cephfs" publishedByFirst) world
    = (returns
         (Some (IgnoredError "identity annotation on PV does not match ours")),
       world)
  ∧ Delete lowerASCII (reporting "/volumes/vol1") second publishedByFirst world
    = (returns
         (Some (IgnoredError "identity annotation on PV does not match ours")),
       world).
Proof.
  apply (other_instance_ignores lowerASCII decoder serial
           (reporting "/volumes/vol1")
           (Some kubernetes.Clientset) (Some kubernetes.Clientset)
           first second world started started
           (newCephFSProvisioner serial (Some kubernetes.Clientset) started).2
           (options parameters) started publishedByFirst
           (Provision lowerASCII decoder serial
              (reporting "/volumes/vol1") first (options parameters)
              started).2).
  - apply serial_inj.
  - vm_compute. reflexivity.
  - apply run_pairing.
  - discriminate.
  - vm_compute. reflexivity.
Defined.

Lemma resolution_fails_closed_witness :
  (parseParameters lowerASCII provisioner nameless world).2 = world
  ∧ ∃ clusterName adminName adminKey monitors err,
      (parseParameters lowerASCII provisioner nameless world).1
      = returns (clusterName, adminName, adminKey, monitors, err)
      ∧ (is_Some err →
         clusterName = "" ∧ adminName = "" ∧ adminKey = ""
         ∧ monitors = []).
Proof.
  apply (resolution_fails_closed lowerASCII provisioner nameless world).
  apply run_pairing.
Defined.

Lemma provision_footprint_witness :
  classes (provision (reporting "/volumes/vol1")).2 = classes world
  ∧ apiReachable (provision (reporting "/volumes/vol1")).2
    = apiReachable world.
Proof.
  destruct (provision_footprint lowerASCII decoder uuids
              (reporting "/volumes/vol1") provisioner (options parameters)
              world _ _ (run_pairing _))
    as (Hclasses & Hreach & _).
  split; [exact Hclasses|exact Hreach].
Defined.

Lemma provision_result_shape_witness :
  (is_Some (Some published) ∧ (None : option error) = None)
  ∨ (Some published = None ∧ is_Some (None : option error)).
Proof.
  apply (provision_result_shape lowerASCII decoder uuids
           (reporting "/volumes/vol1") provisioner (options parameters)
           world (Some published) None
           (provision (reporting "/volumes/vol1")).2).
  vm_compute. reflexivity.
Defined.

End InScenario.
